(** * Monthly sales dashboard: the data pipeline of [dashboard_app.py]

    The script reads a CSV file (an upload or the embedded sample) into a
    pandas [DataFrame], corrects the column types, derives a label and a
    moving-average column, computes five summary figures and offers the
    frame as a CSV download.  This development embeds that pipeline.

    - A [DataFrame] is a header and positional rows of cells.
    - Numbers are exact rationals ([Qc]); [NA] stands for NaN and NaT.
      Rounding of binary floating point, infinities and integer overflow
      are outside the model.
    - Python exceptions are the [Raise] results of an error monad.
    - The pandas calls the script makes are modelled in [Module pd] after
      the behaviour of pandas 2.x, each with the arguments the script
      passes. *)

From Stdlib Require Import String Ascii List Bool Arith ZArith Lia.
From Stdlib Require Import QArith Qcanon.
From Stdlib Require Import Permutation Sorted.
Import ListNotations.

Local Open Scope string_scope.
Local Open Scope list_scope.
Local Open Scope nat_scope.

(** ** Exceptions *)

Inductive exn : Type :=
| KeyError (key : string)
| ValueError
| AttributeError
| ParserError
| EmptyDataError.

Inductive result (A : Type) : Type :=
| Ok (a : A)
| Raise (e : exn).

Arguments Ok {A} a.
Arguments Raise {A} e.

Definition bind {A B : Type} (r : result A) (k : A -> result B) : result B :=
  match r with
  | Ok a => k a
  | Raise e => Raise e
  end.

Notation "x <- r ;; k" := (bind r (fun x => k))
  (at level 61, r at next level, right associativity).

Fixpoint mapM {A B : Type} (f : A -> result B) (l : list A) : result (list B) :=
  match l with
  | [] => Ok []
  | a :: l' => b <- f a ;; bs <- mapM f l' ;; Ok (b :: bs)
  end.

Definition raises {A : Type} (r : result A) : Prop :=
  exists e, r = Raise e.

(** ** Text *)

Definition LF : ascii := ascii_of_nat 10.
Definition CR : ascii := ascii_of_nat 13.
Definition COMMA : ascii := ascii_of_nat 44.

(** The byte-order mark that the "utf-8-sig" codec writes. *)
Definition BOM : string :=
  String (ascii_of_nat 239) (String (ascii_of_nat 187)
    (String (ascii_of_nat 191) EmptyString)).

Fixpoint split_on (c : ascii) (s : string) : list string :=
  match s with
  | EmptyString => [EmptyString]
  | String a s' =>
      if Ascii.eqb a c then EmptyString :: split_on c s'
      else match split_on c s' with
           | [] => [String a EmptyString]
           | w :: ws => String a w :: ws
           end
  end.

Fixpoint join (sep : string) (l : list string) : string :=
  match l with
  | [] => EmptyString
  | [s] => s
  | s :: l' => (s ++ sep ++ join sep l')%string
  end.

Fixpoint strip_cr (s : string) : string :=
  match s with
  | EmptyString => EmptyString
  | String a EmptyString => if Ascii.eqb a CR then EmptyString else s
  | String a s' => String a (strip_cr s')
  end.

Definition strip_prefix (p s : string) : string :=
  if String.prefix p s
  then String.substring (String.length p) (String.length s - String.length p) s
  else s.

Definition digit (a : ascii) : option nat :=
  let n := nat_of_ascii a in
  if (48 <=? n) && (n <=? 57) then Some (n - 48) else None.

(** The longest run of decimal digits at the head of [s]: its value, its
    length and the text after it. *)
Fixpoint take_digits (s : string) (acc : N) (len : nat) : N * nat * string :=
  match s with
  | EmptyString => (acc, len, s)
  | String a s' =>
      match digit a with
      | Some d => take_digits s' (acc * 10 + N.of_nat d)%N (S len)
      | None => (acc, len, s)
      end
  end.

Definition take_sign (s : string) : bool * string :=
  match s with
  | String "-" s' => (true, s')
  | String "+" s' => (false, s')
  | _ => (false, s)
  end.

Fixpoint pow10 (n : nat) : positive :=
  match n with
  | O => 1%positive
  | S n' => (10 * pow10 n')%positive
  end.

Definition Qc_of_Z (z : Z) : Qc := Q2Qc (inject_Z z).

(** A decimal numeral: an optional sign, digits with an optional fraction
    (at least one digit in all) and an optional exponent. *)
Definition parse_number (s : string) : option Qc :=
  let '(neg, s1) := take_sign s in
  let '(ip, ni, s2) := take_digits s1 0%N 0 in
  let '(fp, nf, s3) :=
    match s2 with
    | String "." s2' => take_digits s2' 0%N 0
    | _ => (0%N, 0, s2)
    end in
  if (ni + nf =? 0)%nat then None
  else
    let mant := (Z.of_N ip * Zpos (pow10 nf) + Z.of_N fp)%Z in
    let m := Q2Qc ((if neg then (- mant)%Z else mant) # pow10 nf) in
    match s3 with
    | EmptyString => Some m
    | String e s4 =>
        if Ascii.eqb e "e" || Ascii.eqb e "E" then
          let '(eneg, s5) := take_sign s4 in
          match take_digits s5 0%N 0 with
          | (ev, S _, EmptyString) =>
              let p := Qc_of_Z (Zpos (pow10 (N.to_nat ev))) in
              Some (if eneg then (m / p)%Qc else (m * p)%Qc)
          | _ => None
          end
        else None
    end.

(** [strptime] with the format "%Y-%m": four digits, a hyphen and a month
    written 1..9, 01..09 or 10..12, with nothing before or after. *)
Definition strptime_Ym (s : string) : option (nat * nat) :=
  match s with
  | String a (String b (String c (String d (String "-" rest)))) =>
      match digit a, digit b, digit c, digit d with
      | Some a', Some b', Some c', Some d' =>
          let y := 1000 * a' + 100 * b' + 10 * c' + d' in
          match rest with
          | String m1 EmptyString =>
              match digit m1 with
              | Some m => if 1 <=? m then Some (y, m) else None
              | None => None
              end
          | String m1 (String m2 EmptyString) =>
              match digit m1, digit m2 with
              | Some 1, Some m => if m <=? 2 then Some (y, 10 + m) else None
              | Some 0, Some m => if 1 <=? m then Some (y, m) else None
              | _, _ => None
              end
          | _ => None
          end
      | _, _, _, _ => None
      end
  | _ => None
  end.

(** Writing numbers. *)

Definition digit_char (d : N) : ascii := ascii_of_N (48 + d).

Fixpoint N_digits (fuel : nat) (n : N) (acc : string) : string :=
  match fuel with
  | O => acc
  | S fuel' =>
      let acc' := String (digit_char (n mod 10)) acc in
      if (n / 10 =? 0)%N then acc' else N_digits fuel' (n / 10)%N acc'
  end.

Definition string_of_N (n : N) : string :=
  N_digits (S (N.to_nat (N.log2 n))) n EmptyString.

Fixpoint zeros (k : nat) (s : string) : string :=
  match k with
  | O => s
  | S k' => String "0" (zeros k' s)
  end.

Definition zero_pad (width : nat) (s : string) : string :=
  zeros (width - String.length s) s.

(** A rational to at most seventeen significant digits, the precision at
    which a double is written; an integral value is written without a
    fraction. *)
Fixpoint frac_digits (fuel : nat) (r d : N) : string :=
  match fuel with
  | O => EmptyString
  | S fuel' =>
      if (r =? 0)%N then EmptyString
      else String (digit_char (r * 10 / d)) (frac_digits fuel' ((r * 10) mod d) d)
  end.

Definition format_Qc (q : Qc) : string :=
  let n := Z.abs_N (Qnum (this q)) in
  let d := Npos (Qden (this q)) in
  let ip := string_of_N (n / d) in
  let body :=
    if (n mod d =? 0)%N then ip
    else (ip ++ "." ++ frac_digits (17 - String.length ip) (n mod d) d)%string in
  if (Qnum (this q) <? 0)%Z then String "-" body else body.

(** ** Cells and frames *)

(** A cell of a frame.  [NA] is the missing value of every column type: NaN
    in a numeric column, NaT in a datetime column.  A timestamp parsed with
    "%Y-%m" is the midnight that starts a month, so [Date] keeps the year
    and the month. *)
Inductive cell : Type :=
| NA
| Str (s : string)
| Num (q : Qc)
| Date (year month : nat).

Definition isna (c : cell) : bool :=
  match c with
  | NA => true
  | _ => false
  end.

Definition as_num (c : cell) : option Qc :=
  match c with
  | Num q => Some q
  | _ => None
  end.

Definition Series : Type := list cell.

(** A frame: the column labels and the rows in positional order.  After
    [reset_index(drop=True)] the index label of a row is its position. *)
Record DataFrame : Type := mkDataFrame {
  columns : list string;
  rows : list (list cell)
}.

(** Every row has one cell per column. *)
Definition well_formed (df : DataFrame) : Prop :=
  Forall (fun r => length r = length (columns df)) (rows df).

Fixpoint index_of (name : string) (cols : list string) : option nat :=
  match cols with
  | [] => None
  | c :: cols' =>
      if String.eqb c name then Some 0
      else option_map S (index_of name cols')
  end.

Fixpoint set_nth {A : Type} (j : nat) (x : A) (l : list A) : list A :=
  match j, l with
  | _, [] => []
  | O, _ :: l' => x :: l'
  | S j', a :: l' => a :: set_nth j' x l'
  end.

Definition sumQc (l : list Qc) : Qc := fold_right Qcplus (Q2Qc 0) l.

Definition Qc_of_nat (n : nat) : Qc := Qc_of_Z (Z.of_nat n).

(** The non-missing numbers of a series, in order. *)
Fixpoint observed (s : Series) : list Qc :=
  match s with
  | [] => []
  | Num q :: s' => q :: observed s'
  | _ :: s' => observed s'
  end.
(** ** The pandas operations the script calls *)

(** The sorting algorithm behind [sort_values].  The script passes no
    [kind], so pandas sorts with its default, "quicksort", which numpy
    documents as not stable.  What every kind guarantees is that [argsort]
    returns a permutation of the positions that lists the keys in
    ascending order. *)
Class SortKind : Type := {
  argsort : list Z -> list nat;
  argsort_perm : forall ks, Permutation (argsort ks) (seq 0 (length ks));
  argsort_sorted :
    forall ks, Sorted Z.le (map (fun i => nth i ks 0%Z) (argsort ks))
}.

Module pd.

(** The strings [read_csv] reads as missing by default. *)
Definition na_values : list string :=
  [""; "#N/A"; "#N/A N/A"; "#NA"; "-1.#IND"; "-1.#QNAN"; "-NaN"; "-nan";
   "1.#IND"; "1.#QNAN"; "<NA>"; "N/A"; "NA"; "NULL"; "NaN"; "None"; "n/a";
   "nan"; "null"].

Definition read_cell (s : string) : cell :=
  if existsb (String.eqb s) na_values then NA else Str s.

(** A data line: short lines are filled with missing cells, a line with
    more fields than the header is a tokenizing error. *)
Definition read_row (ncols : nat) (line : string) : result (list cell) :=
  let fields := split_on COMMA line in
  if ncols <? length fields then Raise ParserError
  else Ok (map read_cell fields ++ repeat NA (ncols - length fields)).

(** [read_csv] with its defaults, on comma-separated text without quoted
    fields: a leading byte-order mark is dropped, blank lines are skipped,
    the first line is the header.  Cells are kept as text; the numeric
    type inference of pandas is folded into [to_numeric], which gives the
    same value for each cell. *)
Definition read_csv (text : string) : result DataFrame :=
  let lines :=
    filter (fun l => negb (String.eqb l ""))
           (map strip_cr (split_on LF (strip_prefix BOM text))) in
  match lines with
  | [] => Raise EmptyDataError
  | header :: body =>
      let cols := split_on COMMA header in
      rs <- mapM (read_row (length cols)) body ;;
      Ok (mkDataFrame cols rs)
  end.

(** [df[col]] *)
Definition getitem (df : DataFrame) (col : string) : result Series :=
  match index_of col (columns df) with
  | Some j => Ok (map (fun r => nth j r NA) (rows df))
  | None => Raise (KeyError col)
  end.

(** [df[col] = values], for values as long as the frame: an existing
    column is overwritten in place, a new one is appended on the right. *)
Definition setitem (df : DataFrame) (col : string) (values : Series)
  : DataFrame :=
  match index_of col (columns df) with
  | Some j =>
      mkDataFrame (columns df)
        (map (fun rv => set_nth j (snd rv) (fst rv)) (combine (rows df) values))
  | None =>
      mkDataFrame (columns df ++ [col])
        (map (fun rv => fst rv ++ [snd rv]) (combine (rows df) values))
  end.

(** The range of datetime64[ns]: 1677-09-21 to 2262-04-11. *)
Definition in_bounds (y m : nat) : bool :=
  (1677 * 12 + 10 <=? 12 * y + m) && (12 * y + m <=? 2262 * 12 + 4).

(** [to_datetime(s, format="%Y-%m")].  [errors] is left at its default,
    "raise": a value that does not match the format, or lies outside the
    range of timestamps, raises ValueError.  Missing values become NaT. *)
Definition to_datetime_cell (c : cell) : result cell :=
  match c with
  | NA => Ok NA
  | Str s =>
      match strptime_Ym s with
      | Some (y, m) => if in_bounds y m then Ok (Date y m) else Raise ValueError
      | None => Raise ValueError
      end
  | Num _ => Raise ValueError
  | Date y m => Ok (Date y m)
  end.

Definition to_datetime (s : Series) : result Series :=
  mapM to_datetime_cell s.

(** [to_numeric(s, errors="coerce")]: what does not read as a number
    becomes NaN. *)
Definition to_numeric_cell (c : cell) : cell :=
  match c with
  | Str s =>
      match parse_number s with
      | Some q => Num q
      | None => NA
      end
  | Num q => Num q
  | NA | Date _ _ => NA
  end.

Definition to_numeric (s : Series) : Series := map to_numeric_cell s.

(** [df.dropna(subset=[col])] *)
Definition dropna (df : DataFrame) (col : string) : result DataFrame :=
  match index_of col (columns df) with
  | Some j =>
      Ok (mkDataFrame (columns df)
            (filter (fun r => negb (isna (nth j r NA))) (rows df)))
  | None => Raise (KeyError col)
  end.

(** The value numpy compares when it sorts timestamps: the position on
    the time axis, here counted in months. *)
Definition datetime_value (c : cell) : option Z :=
  match c with
  | Date y m => Some (Z.of_nat (12 * y + m))
  | _ => None
  end.

Definition is_some {A : Type} (o : option A) : bool :=
  match o with
  | Some _ => true
  | None => false
  end.

Fixpoint somes {A : Type} (l : list (option A)) : list A :=
  match l with
  | [] => []
  | Some a :: l' => a :: somes l'
  | None :: l' => somes l'
  end.

(** [nargsort]: the positions of the present keys in ascending key order,
    then the positions of the missing ones ([na_position="last"]). *)
Definition nargsort {K : SortKind} (keys : list (option Z)) : list nat :=
  let idx := seq 0 (length keys) in
  let non_nan_idx := filter (fun i => is_some (nth i keys None)) idx in
  let nan_idx := filter (fun i => negb (is_some (nth i keys None))) idx in
  map (fun i => nth i non_nan_idx 0) (argsort (somes keys)) ++ nan_idx.

Definition take (df : DataFrame) (indexer : list nat) : DataFrame :=
  mkDataFrame (columns df) (map (fun i => nth i (rows df) []) indexer).

(** [df.sort_values(col)] on a datetime column. *)
Definition sort_values {K : SortKind} (df : DataFrame) (col : string)
  : result DataFrame :=
  k <- getitem df col ;;
  Ok (take df (nargsort (map datetime_value k))).

(** [df.reset_index(drop=True)]: rows are addressed by position, so the
    frame is already in that form. *)
Definition reset_index (df : DataFrame) : DataFrame := df.

(** [df.empty]: some axis has length zero. *)
Definition empty (df : DataFrame) : bool :=
  (length (rows df) =? 0) || (length (columns df) =? 0).

(** [s.dt.strftime("%Y-%m")] *)
Definition strftime_Ym (c : cell) : cell :=
  match c with
  | Date y m =>
      Str (zero_pad 4 (string_of_N (N.of_nat y)) ++ "-"
           ++ zero_pad 2 (string_of_N (N.of_nat m)))%string
  | _ => NA
  end.

Definition is_datetime (c : cell) : bool :=
  match c with
  | NA | Date _ _ => true
  | _ => false
  end.

Definition dt_strftime (s : Series) : result Series :=
  if forallb is_datetime s then Ok (map strftime_Ym s)
  else Raise AttributeError.

(** [s.rolling(window, min_periods).mean()]: row [i] looks at the rows
    [i-window+1 .. i] that exist, and has a value when at least
    [min_periods] of them hold a number. *)
Definition window_cells (window i : nat) (s : Series) : Series :=
  let lo := i + 1 - window in
  firstn (i + 1 - lo) (skipn lo s).

Definition mean_of (obs : list Qc) : Qc :=
  (sumQc obs / Qc_of_nat (length obs))%Qc.

Definition rolling_mean (window min_periods : nat) (s : Series) : Series :=
  map (fun i =>
         let obs := observed (window_cells window i s) in
         if (min_periods <=? length obs) && (1 <=? length obs)
         then Num (mean_of obs) else NA)
      (seq 0 (length s)).

(** [s.sum()] and [s.mean()], which skip missing values ([skipna=True]);
    [None] is NaN. *)
Definition sum (s : Series) : option Qc := Some (sumQc (observed s)).

Definition mean (s : Series) : option Qc :=
  match observed s with
  | [] => None
  | obs => Some (mean_of obs)
  end.

(** [s.idxmax()] and [s.idxmin()]: the position of the first occurrence
    of the extreme among the values present; ValueError when there is
    none. *)
Fixpoint arg_first (better : Qc -> Qc -> bool) (s : Series) (i : nat)
         (best : option (nat * Qc)) : option (nat * Qc) :=
  match s with
  | [] => best
  | c :: s' =>
      let best' :=
        match as_num c, best with
        | Some q, None => Some (i, q)
        | Some q, Some (_, b) => if better q b then Some (i, q) else best
        | None, _ => best
        end in
      arg_first better s' (S i) best'
  end.

Definition Qc_ltb (a b : Qc) : bool :=
  match (a ?= b)%Qc with
  | Lt => true
  | _ => false
  end.

Definition idxmax (s : Series) : result nat :=
  match arg_first (fun q b => Qc_ltb b q) s 0 None with
  | Some (i, _) => Ok i
  | None => Raise ValueError
  end.

Definition idxmin (s : Series) : result nat :=
  match arg_first (fun q b => Qc_ltb q b) s 0 None with
  | Some (i, _) => Ok i
  | None => Raise ValueError
  end.

(** [df.loc[i]] and [row[col]] *)
Definition loc (df : DataFrame) (i : nat) : result (list string * list cell) :=
  match nth_error (rows df) i with
  | Some r => Ok (columns df, r)
  | None => Raise (KeyError (string_of_N (N.of_nat i)))
  end.

Definition row_get (row : list string * list cell) (col : string)
  : result cell :=
  match index_of col (fst row) with
  | Some j => Ok (nth j (snd row) NA)
  | None => Raise (KeyError col)
  end.

(** [df.to_csv(index=False)]: every column of the frame, in order.  A
    timestamp at midnight is written as a date.  A numeric column that
    holds a NaN or a fraction is a float column, whose integral values
    are written with ".0". *)
Definition is_integral (q : Qc) : bool := (Zpos (Qden (this q)) =? 1)%Z.

Definition float_cell (c : cell) : bool :=
  match c with
  | NA => true
  | Num q => negb (is_integral q)
  | _ => false
  end.

Definition float_column (df : DataFrame) (j : nat) : bool :=
  existsb (fun r => float_cell (nth j r NA)) (rows df).

Definition format_date (y m : nat) : string :=
  (zero_pad 4 (string_of_N (N.of_nat y)) ++ "-"
   ++ zero_pad 2 (string_of_N (N.of_nat m)) ++ "-01")%string.

Definition format_cell (as_float : bool) (c : cell) : string :=
  match c with
  | NA => ""
  | Str s => s
  | Num q =>
      if as_float && is_integral q then (format_Qc q ++ ".0")%string
      else format_Qc q
  | Date y m => format_date y m
  end.

Definition csv_line (fields : list string) : string :=
  (join "," fields ++ String LF EmptyString)%string.

Definition format_row (floats : list bool) (r : list cell) : list string :=
  map (fun fc => format_cell (fst fc) (snd fc)) (combine floats r).

Definition to_csv (df : DataFrame) : string :=
  let floats := map (float_column df) (seq 0 (length (columns df))) in
  String.concat "" (csv_line (columns df)
                    :: map (fun r => csv_line (format_row floats r)) (rows df)).

End pd.

(** ** Python scalars *)

(** A float: [None] is NaN. *)
Definition float : Type := option Qc.






(** [int(x)] truncates toward zero and rejects NaN. *)
Definition py_int (x : float) : result Z :=
  match x with
  | Some q => Ok (Z.quot (Qnum (this q)) (Zpos (Qden (this q))))
  | None => Raise ValueError
  end.

Definition py_float (x : float) : float := x.

(** ** The script *)

Definition SAMPLE_CSV : string := "월,매출액,전년동월,증감률
2024-01,12000000,10500000,14.3
2024-02,13500000,11200000,20.5
2024-03,11000000,12800000,-14.1
2024-04,18000000,15200000,18.4
2024-05,21000000,18500000,13.5
2024-06,19500000,17000000,14.7
2024-07,17500000,16000000,9.4
2024-08,16000000,15000000,6.7
2024-09,15500000,14500000,6.9
2024-10,22000000,20000000,10.0
2024-11,23000000,21000000,9.5
2024-12,24000000,21500000,11.6
".

(** The column labels. *)
Definition c_month : string := "월".
Definition c_sales : string := "매출액".
Definition c_prev : string := "전년동월".
Definition c_growth : string := "증감률".
Definition c_label : string := "월_label".
Definition c_mavg : string := "매출액_이동평균".

Definition required : list string := [c_month; c_sales; c_prev; c_growth].

(** One turn of the loop [for col in ...: df[col] = pd.to_numeric(...)]. *)
Definition coerce_column (df : DataFrame) (col : string) : result DataFrame :=
  s <- pd.getitem df col ;;
  Ok (pd.setitem df col (pd.to_numeric s)).

Fixpoint foldM {A B : Type} (f : A -> B -> result A) (a : A) (l : list B)
  : result A :=
  match l with
  | [] => Ok a
  | b :: l' => a' <- f a b ;; foldM f a' l'
  end.

(** The type correction of [load_df]: the period column is parsed, the
    three numeric columns are coerced. *)
Definition correct_types (df : DataFrame) : result DataFrame :=
  m <- pd.getitem df c_month ;;
  m' <- pd.to_datetime m ;;
  let df := pd.setitem df c_month m' in
  foldM coerce_column df [c_sales; c_prev; c_growth].

(** [load_df] after the file is read. *)
Definition prepare {K : SortKind} (df : DataFrame) : result DataFrame :=
  df <- correct_types df ;;
  df <- pd.dropna df c_month ;;
  df <- pd.sort_values df c_month ;;
  Ok (pd.reset_index df).

(** [not file_bytes]: no upload, or an upload of zero bytes. *)
Definition no_bytes (file_bytes : option string) : bool :=
  match file_bytes with
  | None | Some EmptyString => true
  | Some _ => false
  end.

Definition load_df {K : SortKind} (file_bytes : option string)
           (use_sample_flag : bool) : result DataFrame :=
  df <- (if use_sample_flag || no_bytes file_bytes
         then pd.read_csv SAMPLE_CSV
         else match file_bytes with
              | Some b => pd.read_csv b
              | None => pd.read_csv SAMPLE_CSV
              end) ;;
  prepare df.

Definition subset (l cols : list string) : bool :=
  forallb (fun c => existsb (String.eqb c) cols) l.

(** The check after [load_df]; when it is true the script reports the
    error and stops. *)
Definition rejected (df : DataFrame) : bool :=
  pd.empty df || negb (subset required (columns df)).

(** The two derived columns. *)
Definition derive (df : DataFrame) (window : nat) : result DataFrame :=
  m <- pd.getitem df c_month ;;
  l <- pd.dt_strftime m ;;
  let df := pd.setitem df c_label l in
  s <- pd.getitem df c_sales ;;
  Ok (pd.setitem df c_mavg (pd.rolling_mean window window s)).

(** The summary figures. *)
Definition total_sales (df : DataFrame) : result Z :=
  s <- pd.getitem df c_sales ;;
  py_int (pd.sum s).

Definition avg_growth (df : DataFrame) : result float :=
  g <- pd.getitem df c_growth ;;
  Ok (py_float (pd.mean g)).


Definition max_row (df : DataFrame) : result (list string * list cell) :=
  s <- pd.getitem df c_sales ;;
  i <- pd.idxmax s ;;
  pd.loc df i.

Definition min_row (df : DataFrame) : result (list string * list cell) :=
  s <- pd.getitem df c_sales ;;
  i <- pd.idxmin s ;;
  pd.loc df i.

Definition max_month (df : DataFrame) : result cell :=
  r <- max_row df ;; pd.row_get r c_label.

Definition min_month (df : DataFrame) : result cell :=
  r <- min_row df ;; pd.row_get r c_label.

(** The download: [df.to_csv(index=False).encode("utf-8-sig")]. *)
Definition download (df : DataFrame) : string :=
  (BOM ++ pd.to_csv df)%string.

(** ** Two sorting algorithms *)

Fixpoint insert_by (before : Z * nat -> Z * nat -> bool) (x : Z * nat)
         (l : list (Z * nat)) : list (Z * nat) :=
  match l with
  | [] => [x]
  | y :: l' => if before x y then x :: l else y :: insert_by before x l'
  end.

Definition isort (before : Z * nat -> Z * nat -> bool) (l : list (Z * nat))
  : list (Z * nat) :=
  fold_right (insert_by before) [] l.

Definition argsort_by (before : Z * nat -> Z * nat -> bool) (ks : list Z)
  : list nat :=
  map snd (isort before (combine ks (seq 0 (length ks)))).

(** Insertion that stops at the first key that is not smaller keeps equal
    keys in their order: a stable sort. *)
Definition stable_before (x y : Z * nat) : bool := (fst x <=? fst y)%Z.

(** Insertion that passes equal keys reverses their order. *)
Definition passing_before (x y : Z * nat) : bool := (fst x <? fst y)%Z.

(** * Properties *)

(** ** Insertion sort returns an ascending permutation *)

Section InsertionSort.

Variable before : Z * nat -> Z * nat -> bool.
Hypothesis before_le :
  forall x y, before x y = true -> (fst x <= fst y)%Z.
Hypothesis not_before_ge :
  forall x y, before x y = false -> (fst y <= fst x)%Z.

Definition key_le (x y : Z * nat) : Prop := (fst x <= fst y)%Z.

Lemma insert_by_perm x l : Permutation (insert_by before x l) (x :: l).
Proof.
  induction l as [|y l IH]; simpl.
  - apply Permutation_refl.
  - destruct (before x y).
    + apply Permutation_refl.
    + eapply perm_trans; [apply perm_skip, IH | apply perm_swap].
Qed.

Lemma isort_perm l : Permutation (isort before l) l.
Proof.
  induction l as [|x l IH]; simpl.
  - constructor.
  - eapply perm_trans; [apply insert_by_perm | apply perm_skip, IH].
Qed.

Lemma insert_by_hdrel a x l :
  key_le a x -> HdRel key_le a l -> HdRel key_le a (insert_by before x l).
Proof.
  intros Hax Hl. destruct l as [|y l]; simpl.
  - constructor. exact Hax.
  - destruct (before x y); constructor.
    + exact Hax.
    + inversion Hl; assumption.
Qed.

Lemma insert_by_sorted x l :
  Sorted key_le l -> Sorted key_le (insert_by before x l).
Proof.
  induction 1 as [|y l Hs IH Hhd]; simpl.
  - repeat constructor.
  - destruct (before x y) eqn:E.
    + constructor.
      * constructor; assumption.
      * constructor. apply before_le, E.
    + constructor.
      * exact IH.
      * apply insert_by_hdrel; [apply not_before_ge, E | exact Hhd].
Qed.

Lemma isort_sorted l : Sorted key_le (isort before l).
Proof.
  induction l as [|x l IH]; simpl.
  - constructor.
  - apply insert_by_sorted, IH.
Qed.

Lemma map_snd_combine_seq (ks : list Z) :
  map snd (combine ks (seq 0 (length ks))) = seq 0 (length ks).
Proof.
  generalize 0. induction ks as [|k ks IH]; intros n; simpl.
  - reflexivity.
  - f_equal. apply IH.
Qed.

Lemma argsort_by_perm ks :
  Permutation (argsort_by before ks) (seq 0 (length ks)).
Proof.
  unfold argsort_by.
  rewrite <- (map_snd_combine_seq ks) at 2.
  apply Permutation_map, isort_perm.
Qed.

Lemma combine_seq_nth (ks : list Z) :
  Forall (fun p => nth (snd p) ks 0%Z = fst p)
         (combine ks (seq 0 (length ks))).
Proof.
  apply Forall_forall. intros [k i] Hin.
  apply In_nth with (d := (0%Z, 0)) in Hin.
  destruct Hin as [j [Hj Hnth]].
  rewrite length_combine, length_seq, Nat.min_id in Hj.
  rewrite combine_nth in Hnth by (rewrite length_seq; reflexivity).
  rewrite seq_nth in Hnth by exact Hj.
  inversion Hnth; subst. reflexivity.
Qed.

Lemma sorted_map_fst (l : list (Z * nat)) :
  Sorted key_le l -> Sorted Z.le (map fst l).
Proof.
  induction 1 as [|x l Hs IH Hhd]; simpl.
  - constructor.
  - constructor; [exact IH|].
    destruct Hhd; simpl; constructor; assumption.
Qed.

Lemma argsort_by_sorted ks :
  Sorted Z.le (map (fun i => nth i ks 0%Z) (argsort_by before ks)).
Proof.
  unfold argsort_by. rewrite map_map.
  assert (H : Forall (fun p => nth (snd p) ks 0%Z = fst p)
                     (isort before (combine ks (seq 0 (length ks))))).
  { eapply Permutation_Forall; [| apply combine_seq_nth].
    apply Permutation_sym, isort_perm. }
  rewrite (map_ext_Forall _ _ H).
  apply sorted_map_fst, isort_sorted.
Qed.

End InsertionSort.

(** The sort that keeps ties in input order ([kind="stable"]). *)
#[refine] Instance stable_kind : SortKind :=
  {| argsort := argsort_by stable_before |}.
Proof.
  - apply argsort_by_perm.
  - apply argsort_by_sorted; unfold stable_before; intros x y H.
    + apply Z.leb_le, H.
    + apply Z.leb_gt in H. lia.
Defined.

(** A sort that lists ties last-first; it meets the contract of
    [argsort] as well. *)
#[refine] Instance passing_kind : SortKind :=
  {| argsort := argsort_by passing_before |}.
Proof.
  - apply argsort_by_perm.
  - apply argsort_by_sorted; unfold passing_before; intros x y H.
    + apply Z.ltb_lt in H. lia.
    + apply Z.ltb_ge, H.
Defined.

(** ** The error monad *)

Lemma bind_ok {A B : Type} (r : result A) (k : A -> result B) (b : B) :
  bind r k = Ok b -> exists a, r = Ok a /\ k a = Ok b.
Proof.
  destruct r as [a|e]; simpl; intros H.
  - exists a. split; [reflexivity | exact H].
  - discriminate.
Qed.

Lemma mapM_length {A B : Type} (f : A -> result B) l l' :
  mapM f l = Ok l' -> length l' = length l.
Proof.
  revert l'. induction l as [|a l IH]; simpl; intros l' H.
  - inversion H. reflexivity.
  - apply bind_ok in H. destruct H as [b [_ H]].
    apply bind_ok in H. destruct H as [bs [Hbs H]].
    inversion H; subst. simpl. f_equal. apply IH, Hbs.
Qed.

Lemma mapM_Forall2 {A B : Type} (f : A -> result B) l l' :
  mapM f l = Ok l' -> Forall2 (fun a b => f a = Ok b) l l'.
Proof.
  revert l'. induction l as [|a l IH]; simpl; intros l' H.
  - inversion H. constructor.
  - apply bind_ok in H. destruct H as [b [Hb H]].
    apply bind_ok in H. destruct H as [bs [Hbs H]].
    inversion H; subst. constructor; [exact Hb | apply IH, Hbs].
Qed.


(** ** Columns of a frame *)

Lemma index_of_lt c cols j : index_of c cols = Some j -> j < length cols.
Proof.
  revert j. induction cols as [|x cols IH]; simpl; intros j H.
  - discriminate.
  - destruct (String.eqb x c).
    + inversion H. lia.
    + destruct (index_of c cols) as [k|]; simpl in H; [|discriminate].
      inversion H. specialize (IH k eq_refl). lia.
Qed.

Lemma index_of_nth c cols j :
  index_of c cols = Some j -> nth j cols EmptyString = c.
Proof.
  revert j. induction cols as [|x cols IH]; simpl; intros j H.
  - discriminate.
  - destruct (String.eqb x c) eqn:E.
    + inversion H. apply String.eqb_eq, E.
    + destruct (index_of c cols) as [k|]; simpl in H; [|discriminate].
      inversion H. apply IH. reflexivity.
Qed.

Lemma index_of_inj c c' cols j :
  index_of c cols = Some j -> index_of c' cols = Some j -> c = c'.
Proof.
  intros H H'. apply index_of_nth in H. apply index_of_nth in H'. congruence.
Qed.

Lemma index_of_app_old c c' cols j :
  index_of c cols = Some j -> index_of c (cols ++ [c']) = Some j.
Proof.
  revert j. induction cols as [|x cols IH]; simpl; intros j H.
  - discriminate.
  - destruct (String.eqb x c).
    + exact H.
    + destruct (index_of c cols) as [k|]; simpl in H; [|discriminate].
      rewrite (IH k eq_refl). exact H.
Qed.

Lemma index_of_app_new c cols :
  index_of c cols = None -> index_of c (cols ++ [c]) = Some (length cols).
Proof.
  induction cols as [|x cols IH]; simpl; intros H.
  - rewrite String.eqb_refl. reflexivity.
  - destruct (String.eqb x c); [discriminate|].
    destruct (index_of c cols); [discriminate|].
    rewrite IH by reflexivity. reflexivity.
Qed.

Lemma index_of_app_none c c' cols :
  index_of c cols = None -> c' <> c -> index_of c (cols ++ [c']) = None.
Proof.
  induction cols as [|x cols IH]; simpl; intros H Hne.
  - apply String.eqb_neq in Hne. rewrite Hne. reflexivity.
  - destruct (String.eqb x c); [discriminate|].
    destruct (index_of c cols); [discriminate|].
    rewrite IH by (reflexivity || assumption). reflexivity.
Qed.

Lemma length_set_nth {A : Type} j (x : A) l :
  length (set_nth j x l) = length l.
Proof.
  revert j. induction l as [|a l IH]; intros [|j]; simpl; auto.
Qed.

Lemma nth_set_nth_same {A : Type} j (x d : A) l :
  j < length l -> nth j (set_nth j x l) d = x.
Proof.
  revert j. induction l as [|a l IH]; intros [|j]; simpl; intros H;
    try lia; auto. apply IH. lia.
Qed.

Lemma nth_set_nth_other {A : Type} j k (x d : A) l :
  j <> k -> nth k (set_nth j x l) d = nth k l d.
Proof.
  revert j k. induction l as [|a l IH]; intros [|j] [|k] H; simpl;
    try reflexivity; try lia. apply IH. lia.
Qed.

Lemma getitem_length df c s :
  pd.getitem df c = Ok s -> length s = length (rows df).
Proof.
  unfold pd.getitem. destruct (index_of c (columns df)); intros H.
  - inversion H. apply length_map.
  - discriminate.
Qed.

Lemma setitem_rows_length df c v :
  length v = length (rows df) ->
  length (rows (pd.setitem df c v)) = length (rows df).
Proof.
  intros H. unfold pd.setitem.
  destruct (index_of c (columns df)); simpl;
    rewrite length_map, length_combine, H; apply Nat.min_id.
Qed.

Lemma setitem_well_formed df c v :
  well_formed df -> well_formed (pd.setitem df c v).
Proof.
  unfold well_formed, pd.setitem. intros H.
  destruct (index_of c (columns df)); simpl;
    apply Forall_forall; intros r Hin; apply in_map_iff in Hin;
    destruct Hin as [[r0 x] [<- Hin]]; apply in_combine_l in Hin;
    rewrite Forall_forall in H; specialize (H _ Hin); simpl.
  - rewrite length_set_nth. exact H.
  - rewrite !length_app, H. reflexivity.
Qed.

(** Mapping over [combine l v] reads the two lists position by position. *)
Lemma map_combine_ext {A B C : Type} (f : A * B -> C) (g : A -> C)
      (h : B -> C) (l : list A) (v : list B) :
  length v = length l ->
  (Forall (fun a => forall b, f (a, b) = g a) l -> map f (combine l v) = map g l)
  /\ (Forall (fun a => forall b, f (a, b) = h b) l -> map f (combine l v) = map h v).
Proof.
  revert v. induction l as [|a l IH]; intros [|b v] Hlen; simpl in *;
    try discriminate; split; intros HF; try reflexivity.
  - inversion HF; subst. f_equal; [auto|]. apply IH; [lia | assumption].
  - inversion HF; subst. f_equal; [auto|]. apply IH; [lia | assumption].
Qed.

Lemma getitem_setitem_same df c v :
  well_formed df -> length v = length (rows df) ->
  pd.getitem (pd.setitem df c v) c = Ok v.
Proof.
  intros Hwf Hlen. unfold pd.getitem, pd.setitem.
  destruct (index_of c (columns df)) as [j|] eqn:E; simpl.
  - rewrite E. f_equal. rewrite map_map.
    rewrite <- (map_id v) at 2.
    apply (map_combine_ext _ (fun _ => NA) (fun b => b)); [exact Hlen|].
    eapply Forall_impl; [|exact Hwf]. intros r Hr b. simpl.
    apply nth_set_nth_same. rewrite Hr. eapply index_of_lt, E.
  - rewrite (index_of_app_new _ _ E). f_equal. rewrite map_map.
    rewrite <- (map_id v) at 2.
    apply (map_combine_ext _ (fun _ => NA) (fun b => b)); [exact Hlen|].
    eapply Forall_impl; [|exact Hwf]. intros r Hr b. simpl.
    rewrite <- Hr. rewrite app_nth2, Nat.sub_diag by lia. reflexivity.
Qed.

Lemma getitem_setitem_other df c c' v :
  well_formed df -> length v = length (rows df) -> c <> c' ->
  pd.getitem (pd.setitem df c v) c' = pd.getitem df c'.
Proof.
  intros Hwf Hlen Hne. unfold pd.getitem, pd.setitem.
  destruct (index_of c (columns df)) as [j|] eqn:E; simpl.
  - destruct (index_of c' (columns df)) as [k|] eqn:E'; [|reflexivity].
    f_equal. rewrite map_map.
    apply (map_combine_ext _ (fun r => nth k r NA) (fun _ => NA));
      [exact Hlen|].
    apply Forall_forall. intros r _ b. simpl.
    apply nth_set_nth_other. intros ->. apply Hne.
    eapply index_of_inj; eassumption.
  - destruct (index_of c' (columns df)) as [k|] eqn:E'.
    + rewrite (index_of_app_old _ _ _ _ E'). f_equal. rewrite map_map.
      apply (map_combine_ext _ (fun r => nth k r NA) (fun _ => NA));
        [exact Hlen|].
      eapply Forall_impl; [|exact Hwf]. intros r Hr b. simpl.
      apply app_nth1. rewrite Hr. eapply index_of_lt, E'.
    + rewrite (index_of_app_none _ _ _ E' Hne). reflexivity.
Qed.

Lemma setitem_columns df c v j :
  index_of c (columns df) = Some j -> columns (pd.setitem df c v) = columns df.
Proof.
  intros E. unfold pd.setitem. rewrite E. reflexivity.
Qed.

Lemma getitem_index df c s :
  pd.getitem df c = Ok s -> exists j, index_of c (columns df) = Some j.
Proof.
  unfold pd.getitem. destruct (index_of c (columns df)) as [j|]; intros H.
  - exists j. reflexivity.
  - discriminate.
Qed.

(** Overwriting a column that exists: the frame keeps its shape, the
    column reads back, every other column is untouched. *)
Lemma setitem_existing df c s v :
  well_formed df -> pd.getitem df c = Ok s -> length v = length s ->
  let df' := pd.setitem df c v in
  well_formed df'
  /\ columns df' = columns df
  /\ length (rows df') = length (rows df)
  /\ pd.getitem df' c = Ok v
  /\ (forall c', c <> c' -> pd.getitem df' c' = pd.getitem df c').
Proof.
  intros Hwf Hs Hlen df'.
  assert (Hv : length v = length (rows df))
    by (rewrite Hlen; eapply getitem_length, Hs).
  destruct (getitem_index _ _ _ Hs) as [j Hj].
  subst df'. repeat split.
  - apply setitem_well_formed, Hwf.
  - eapply setitem_columns, Hj.
  - apply setitem_rows_length, Hv.
  - apply getitem_setitem_same; assumption.
  - intros c' Hne. apply getitem_setitem_other; assumption.
Qed.


Ltac label_neq := apply String.eqb_neq; vm_compute; reflexivity.

Ltac flip_neq :=
  first [ assumption
        | let E := fresh in intros E; symmetry in E; contradiction ].

Lemma to_numeric_length s : length (pd.to_numeric s) = length s.
Proof. apply length_map. Qed.

Lemma coerce_column_spec df c df' :
  well_formed df -> coerce_column df c = Ok df' ->
  exists s, pd.getitem df c = Ok s
  /\ well_formed df'
  /\ columns df' = columns df
  /\ length (rows df') = length (rows df)
  /\ pd.getitem df' c = Ok (pd.to_numeric s)
  /\ (forall c', c <> c' -> pd.getitem df' c' = pd.getitem df c').
Proof.
  intros Hwf H. unfold coerce_column in H.
  apply bind_ok in H. destruct H as [s [Hs H]]. inversion H; subst df'.
  exists s. split; [exact Hs|].
  apply (setitem_existing df c s _ Hwf Hs), to_numeric_length.
Qed.

(** What [correct_types] returns: the frame with its period column parsed
    and its three numeric columns coerced, everything else as read. *)
Lemma correct_types_spec df u :
  well_formed df -> correct_types df = Ok u ->
  well_formed u
  /\ columns u = columns df
  /\ length (rows u) = length (rows df)
  /\ (exists m m', pd.getitem df c_month = Ok m
                   /\ pd.to_datetime m = Ok m'
                   /\ pd.getitem u c_month = Ok m')
  /\ (forall c, In c [c_sales; c_prev; c_growth] ->
                exists s, pd.getitem df c = Ok s
                          /\ pd.getitem u c = Ok (pd.to_numeric s))
  /\ (forall c, ~ In c required -> pd.getitem u c = pd.getitem df c).
Proof.
  intros Hwf H. unfold correct_types in H.
  apply bind_ok in H. destruct H as [m [Hm H]].
  apply bind_ok in H. destruct H as [m' [Hm' H]].
  simpl in H.
  destruct (setitem_existing df c_month m m' Hwf Hm (mapM_length _ _ _ Hm'))
    as (W0 & C0 & L0 & G0 & O0).
  apply bind_ok in H. destruct H as [d1 [H1 H]].
  destruct (coerce_column_spec _ _ _ W0 H1) as (s1 & S1 & W1 & C1 & L1 & G1 & O1).
  apply bind_ok in H. destruct H as [d2 [H2 H]].
  destruct (coerce_column_spec _ _ _ W1 H2) as (s2 & S2 & W2 & C2 & L2 & G2 & O2).
  apply bind_ok in H. destruct H as [d3 [H3 H]].
  destruct (coerce_column_spec _ _ _ W2 H3) as (s3 & S3 & W3 & C3 & L3 & G3 & O3).
  simpl in H. inversion H; subst u. clear H.
  assert (N1 : c_month <> c_sales) by label_neq.
  assert (N2 : c_month <> c_prev) by label_neq.
  assert (N3 : c_month <> c_growth) by label_neq.
  assert (N4 : c_sales <> c_prev) by label_neq.
  assert (N5 : c_sales <> c_growth) by label_neq.
  assert (N6 : c_prev <> c_growth) by label_neq.
  repeat split.
  - exact W3.
  - congruence.
  - congruence.
  - exists m, m'. repeat split; try assumption.
    rewrite O3, O2, O1 by flip_neq. exact G0.
  - intros c [<-|[<-|[<-|[]]]].
    + exists s1. split.
      * rewrite <- S1. symmetry. apply O0, N1.
      * rewrite O3, O2 by flip_neq. exact G1.
    + exists s2. split.
      * rewrite <- S2. rewrite O1 by flip_neq. symmetry. apply O0, N2.
      * rewrite O3 by flip_neq. exact G2.
    + exists s3. split.
      * rewrite <- S3. rewrite O2, O1 by flip_neq. symmetry. apply O0, N3.
      * exact G3.
  - intros c Hc. unfold required in Hc. simpl in Hc.
    rewrite O3, O2, O1, O0; [reflexivity| | | |]; intros E; apply Hc; auto.
Qed.

(** ** Reading *)

Lemma read_row_length n line r : pd.read_row n line = Ok r -> length r = n.
Proof.
  unfold pd.read_row. destruct (n <? length (split_on COMMA line)) eqn:E.
  - discriminate.
  - intros H. inversion H. apply Nat.ltb_ge in E.
    rewrite length_app, length_map, repeat_length. lia.
Qed.

Lemma read_csv_well_formed text df :
  pd.read_csv text = Ok df -> well_formed df.
Proof.
  unfold pd.read_csv.
  destruct (filter _ _) as [|header body]; [discriminate|].
  intros H. apply bind_ok in H. destruct H as [rs [Hrs H]].
  inversion H; subst df. unfold well_formed. simpl. clear H.
  apply mapM_Forall2 in Hrs.
  induction Hrs as [|line r body rs Hr _ IH]; constructor.
  - eapply read_row_length, Hr.
  - exact IH.
Qed.

(** ** Dropping and sorting *)

Lemma map_nth_seq {A : Type} (l : list A) (d : A) :
  map (fun i => nth i l d) (seq 0 (length l)) = l.
Proof.
  induction l as [|a l IH]; simpl.
  - reflexivity.
  - f_equal. rewrite <- seq_shift, map_map. exact IH.
Qed.

Lemma take_perm {A : Type} (l : list A) (d : A) (p : list nat) :
  Permutation p (seq 0 (length l)) ->
  Permutation (map (fun i => nth i l d) p) l.
Proof.
  intros H.
  apply (Permutation_trans (l' := map (fun i => nth i l d) (seq 0 (length l)))).
  - apply Permutation_map, H.
  - rewrite map_nth_seq. apply Permutation_refl.
Qed.

Lemma somes_map_Some {A : Type} (l : list A) : pd.somes (map Some l) = l.
Proof.
  induction l as [|a l IH]; simpl; [reflexivity | f_equal; exact IH].
Qed.

Lemma filter_none {A : Type} (f : A -> bool) (l : list A) :
  (forall x, In x l -> f x = false) -> filter f l = [].
Proof.
  induction l as [|a l IH]; simpl; intros H.
  - reflexivity.
  - rewrite (H a) by (left; reflexivity). apply IH. intros x Hx.
    apply H. right. exact Hx.
Qed.

Lemma nth_map_Some {A : Type} (l : list A) (d : A) i :
  i < length l -> nth i (map Some l) None = Some (nth i l d).
Proof.
  intros H. rewrite (nth_indep _ None (Some d)) by (rewrite length_map; exact H).
  apply map_nth.
Qed.

(** With no key missing, [nargsort] is [argsort]. *)
Lemma nargsort_present {K : SortKind} (ks : list Z) :
  pd.nargsort (map Some ks) = argsort ks.
Proof.
  unfold pd.nargsort. rewrite somes_map_Some, length_map.
  assert (Hall : forall i, In i (seq 0 (length ks)) ->
                           pd.is_some (nth i (map Some ks) None) = true).
  { intros i Hi. apply in_seq in Hi.
    rewrite (nth_map_Some ks 0%Z) by lia. reflexivity. }
  rewrite (forallb_filter_id _ (seq 0 (length ks)))
    by (apply forallb_forall, Hall).
  rewrite filter_none by (intros i Hi; rewrite (Hall i Hi); reflexivity).
  rewrite app_nil_r.
  transitivity (map (fun i : nat => i) (argsort ks)); [|apply map_id].
  apply map_ext_in. intros i Hi.
  apply (Permutation_in _ (argsort_perm ks)), in_seq in Hi.
  rewrite seq_nth by lia. reflexivity.
Qed.

Definition present (c : cell) : bool := negb (isna c).

Lemma dropna_spec df c s d :
  pd.getitem df c = Ok s -> pd.dropna df c = Ok d ->
  columns d = columns df
  /\ pd.getitem d c = Ok (filter present s)
  /\ (well_formed df -> well_formed d)
  /\ (forall j, index_of c (columns df) = Some j ->
                rows d = filter (fun r => present (nth j r NA)) (rows df)).
Proof.
  unfold pd.getitem, pd.dropna.
  destruct (index_of c (columns df)) as [j|] eqn:E; [|discriminate].
  intros Hs Hd. inversion Hs; subst s. inversion Hd; subst d. simpl.
  rewrite E. repeat split.
  - f_equal. symmetry. apply filter_map_swap.
  - unfold well_formed. simpl. intros Hwf.
    apply Forall_forall. intros r Hr. apply filter_In in Hr.
    rewrite Forall_forall in Hwf. apply Hwf, Hr.
  - intros j' Hj'. inversion Hj'. reflexivity.
Qed.

(** A parsed period column holds timestamps and NaT only. *)
Lemma to_datetime_cells m m' :
  pd.to_datetime m = Ok m' -> Forall (fun c => pd.is_datetime c = true) m'.
Proof.
  intros H. apply mapM_Forall2 in H.
  induction H as [|a b m m' Hab _ IH]; constructor; [|exact IH].
  destruct a as [|s|q|y mo]; simpl in Hab.
  - inversion Hab. reflexivity.
  - destruct (strptime_Ym s) as [[y mo]|]; [|discriminate].
    destruct (pd.in_bounds y mo); [|discriminate].
    inversion Hab. reflexivity.
  - discriminate.
  - inversion Hab. reflexivity.
Qed.

Lemma present_datetime_keys (l : list cell) :
  Forall (fun c => pd.is_datetime c = true) l ->
  map pd.datetime_value (filter present l)
  = map Some (pd.somes (map pd.datetime_value (filter present l))).
Proof.
  induction 1 as [|c l Hc _ IH]; simpl.
  - reflexivity.
  - destruct c; simpl in *; try discriminate; try exact IH.
    f_equal. exact IH.
Qed.

Definition month_keys (df : DataFrame) : result (list (option Z)) :=
  m <- pd.getitem df c_month ;; Ok (map pd.datetime_value m).

(** Sorting a frame whose keys are all present: the rows are taken in the
    order [argsort] gives, so they are a permutation of the rows before
    and their keys ascend. *)
Lemma sort_values_present {K : SortKind} df c k ks :
  pd.getitem df c = Ok k ->
  map pd.datetime_value k = map Some ks ->
  pd.sort_values df c = Ok (pd.take df (argsort ks))
  /\ Permutation (rows (pd.take df (argsort ks))) (rows df)
  /\ (s <- pd.getitem (pd.take df (argsort ks)) c ;;
      Ok (map pd.datetime_value s))
     = Ok (map Some (map (fun i => nth i ks 0%Z) (argsort ks))).
Proof.
  intros Hk Hks.
  assert (Hlen : length ks = length (rows df)).
  { rewrite <- (getitem_length _ _ _ Hk).
    rewrite <- (length_map Some ks), <- Hks. apply length_map. }
  repeat split.
  - unfold pd.sort_values. rewrite Hk. simpl.
    rewrite Hks, nargsort_present. reflexivity.
  - simpl. apply take_perm. rewrite <- Hlen. apply argsort_perm.
  - unfold pd.getitem in *. simpl.
    destruct (index_of c (columns df)) as [j|]; [|discriminate].
    inversion Hk; subst k. simpl. f_equal.
    rewrite !map_map. apply map_ext_in. intros i Hi.
    apply (Permutation_in _ (argsort_perm ks)), in_seq in Hi.
    rewrite <- (nth_map_Some ks 0%Z) by lia.
    rewrite <- Hks, map_map.
    assert (E : pd.datetime_value (nth j (@nil cell) NA) = None)
      by (destruct j; reflexivity).
    rewrite <- E. symmetry.
    apply (map_nth (fun r => pd.datetime_value (nth j r NA))).
Qed.

(** ** Sorting distinct keys leaves no choice *)

Lemma strongly_sorted_lt (l : list Z) :
  Sorted Z.le l -> NoDup l -> StronglySorted Z.lt l.
Proof.
  intros Hs Hnd.
  apply Sorted_StronglySorted in Hs; [|intros x y z; apply Z.le_trans].
  induction Hs as [|a l Hs IH Hall]; constructor.
  - apply IH. inversion Hnd; assumption.
  - inversion Hnd as [|? ? Hnotin _]; subst.
    rewrite Forall_forall in *. intros x Hx.
    specialize (Hall x Hx).
    assert (a <> x) by (intros ->; contradiction).
    lia.
Qed.

Lemma strongly_sorted_lt_unique (l1 l2 : list Z) :
  StronglySorted Z.lt l1 -> StronglySorted Z.lt l2 ->
  Permutation l1 l2 -> l1 = l2.
Proof.
  intros H1. revert l2.
  induction H1 as [|a l1 H1 IH Ha]; intros l2 H2 Hp.
  - apply Permutation_nil in Hp. symmetry. exact Hp.
  - destruct H2 as [|b l2 H2 Hb].
    + apply Permutation_sym, Permutation_nil in Hp. discriminate.
    + assert (a = b).
      { assert (Hina : In a (b :: l2))
          by (apply (Permutation_in _ Hp); left; reflexivity).
        assert (Hinb : In b (a :: l1))
          by (apply (Permutation_in _ (Permutation_sym Hp)); left; reflexivity).
        rewrite Forall_forall in Ha, Hb.
        destruct Hina as [E|Hina]; [symmetry; exact E|].
        destruct Hinb as [E|Hinb]; [exact E|].
        specialize (Ha _ Hinb). specialize (Hb _ Hina). lia. }
      subst b. f_equal. apply IH; [exact H2|].
      eapply Permutation_cons_inv, Hp.
Qed.

Lemma map_injective_on {A B : Type} (f : A -> B) (l1 l2 : list A) :
  (forall x y, In x l1 -> In y l2 -> f x = f y -> x = y) ->
  map f l1 = map f l2 -> l1 = l2.
Proof.
  revert l2. induction l1 as [|a l1 IH]; intros [|b l2] Hinj H;
    simpl in H; try discriminate; [reflexivity|].
  inversion H. f_equal.
  - apply Hinj; simpl; auto.
  - apply IH; [|assumption]. intros x y Hx Hy. apply Hinj; simpl; auto.
Qed.

(** Two sorting algorithms agree on keys without duplicates. *)
Lemma argsort_unique (K1 K2 : SortKind) (ks : list Z) :
  NoDup ks -> @argsort K1 ks = @argsort K2 ks.
Proof.
  intros Hnd.
  set (f := fun i => nth i ks 0%Z).
  assert (Hperm : forall K : SortKind, Permutation (map f (@argsort K ks)) ks).
  { intros K. unfold f. apply take_perm, argsort_perm. }
  assert (Hsort : forall K : SortKind,
             StronglySorted Z.lt (map f (@argsort K ks))).
  { intros K. apply strongly_sorted_lt.
    - apply argsort_sorted.
    - eapply Permutation_NoDup; [apply Permutation_sym, Hperm | exact Hnd]. }
  apply (map_injective_on f).
  - intros x y Hx Hy E.
    apply (Permutation_in _ (argsort_perm ks)), in_seq in Hx.
    apply (Permutation_in _ (argsort_perm ks)), in_seq in Hy.
    apply (proj1 (NoDup_nth ks 0%Z) Hnd); [lia | lia | exact E].
  - apply strongly_sorted_lt_unique; try apply Hsort.
    eapply Permutation_trans; [apply Hperm | apply Permutation_sym, Hperm].
Qed.

(** ** The loaded table *)

(** The text [load_df] parses. *)
Definition source_text (file_bytes : option string) (use_sample_flag : bool)
  : string :=
  if use_sample_flag || no_bytes file_bytes then SAMPLE_CSV
  else match file_bytes with
       | Some b => b
       | None => SAMPLE_CSV
       end.

Lemma load_df_eq {K : SortKind} file_bytes use_sample_flag :
  load_df file_bytes use_sample_flag
  = (df <- pd.read_csv (source_text file_bytes use_sample_flag) ;; prepare df).
Proof.
  unfold load_df, source_text.
  destruct (use_sample_flag || no_bytes file_bytes); [reflexivity|].
  destruct file_bytes; reflexivity.
Qed.

(** The stages of [prepare]: the typed frame [u], the frame [d] without
    the rows that lack a period, and [d] reordered by [argsort]. *)
Lemma prepare_stages {K : SortKind} df t :
  well_formed df -> prepare df = Ok t ->
  exists u d ks,
    correct_types df = Ok u
    /\ pd.dropna u c_month = Ok d
    /\ well_formed d
    /\ month_keys d = Ok (map Some ks)
    /\ t = pd.take d (argsort ks).
Proof.
  intros Hwf H. unfold prepare in H.
  apply bind_ok in H. destruct H as [u [Hu H]].
  apply bind_ok in H. destruct H as [d [Hd H]].
  apply bind_ok in H. destruct H as [s [Hs H]].
  inversion H; subst t. clear H. unfold pd.reset_index.
  destruct (correct_types_spec _ _ Hwf Hu) as (Wu & _ & _ & Hm & _).
  destruct Hm as (m & m' & _ & Hm' & Gu).
  destruct (dropna_spec _ _ _ _ Gu Hd) as (_ & Gd & Wd & _).
  pose proof (present_datetime_keys _ (to_datetime_cells _ _ Hm')) as Hks.
  set (ks := pd.somes (map pd.datetime_value (filter present m'))) in *.
  destruct (sort_values_present d c_month _ ks Gd Hks) as (Hsv & _).
  exists u, d, ks. repeat split; try assumption.
  - apply Wd, Wu.
  - unfold month_keys. rewrite Gd. simpl. f_equal. exact Hks.
  - rewrite Hsv in Hs. inversion Hs. reflexivity.
Qed.

Lemma prepare_from_stages {K : SortKind} df u d ks :
  correct_types df = Ok u ->
  pd.dropna u c_month = Ok d ->
  month_keys d = Ok (map Some ks) ->
  prepare df = Ok (pd.take d (argsort ks)).
Proof.
  intros Hu Hd Hk. unfold prepare. rewrite Hu. simpl. rewrite Hd. simpl.
  unfold month_keys in Hk.
  apply bind_ok in Hk. destruct Hk as [k [Gk Hk]]. inversion Hk as [Hks].
  destruct (sort_values_present d c_month k ks Gk Hks) as (-> & _).
  reflexivity.
Qed.

Fixpoint distinctb (l : list Z) : bool :=
  match l with
  | [] => true
  | x :: l' => negb (existsb (Z.eqb x) l') && distinctb l'
  end.

Lemma distinctb_NoDup l : distinctb l = true -> NoDup l.
Proof.
  induction l as [|x l IH]; simpl; intros H.
  - constructor.
  - apply andb_prop in H. destruct H as [Hx Hl]. constructor.
    + intros Hin. apply negb_true_iff in Hx.
      assert (existsb (Z.eqb x) l = true)
        by (apply existsb_exists; exists x; split; [exact Hin | apply Z.eqb_refl]).
      congruence.
    + apply IH, Hl.
Qed.

(** A table whose periods are pairwise distinct is the same under every
    sorting algorithm. *)
Lemma load_df_any_kind (K : SortKind) file_bytes use_sample_flag t ks :
  @load_df stable_kind file_bytes use_sample_flag = Ok t ->
  month_keys t = Ok (map Some ks) ->
  distinctb ks = true ->
  @load_df K file_bytes use_sample_flag = Ok t.
Proof.
  intros Ht Hks Hnd.
  rewrite (@load_df_eq stable_kind) in Ht. rewrite (@load_df_eq K).
  destruct (pd.read_csv (source_text file_bytes use_sample_flag))
    as [raw|] eqn:Hraw; simpl in *; [|discriminate].
  destruct (prepare_stages _ _ (read_csv_well_formed _ _ Hraw) Ht)
    as (u & d & ks0 & Hu & Hd & _ & Hk & ->).
  rewrite (prepare_from_stages raw u d ks0 Hu Hd Hk).
  assert (Hk' := Hk). unfold month_keys in Hk'.
  apply bind_ok in Hk'. destruct Hk' as [k [Gk Hk']]. inversion Hk' as [Hk0].
  destruct (sort_values_present (K := stable_kind) d c_month k ks0 Gk Hk0)
    as (_ & _ & Hsorted).
  unfold month_keys in Hks. rewrite Hsorted in Hks.
  inversion Hks as [E].
  assert (E' : map (fun i => nth i ks0 0%Z) (@argsort stable_kind ks0) = ks).
  { rewrite <- (somes_map_Some ks), <- E, somes_map_Some. reflexivity. }
  assert (NoDup ks0).
  { eapply Permutation_NoDup; [|apply distinctb_NoDup, Hnd].
    rewrite <- E'. apply take_perm, argsort_perm. }
  rewrite (argsort_unique K stable_kind ks0) by assumption. reflexivity.
Qed.








(** ** Uploads that the loader does not survive *)

(** An upload whose second row has no thirteenth month to name, and whose
    third row has text for its sales. *)
Definition bad_period_csv : string := "월,매출액,전년동월,증감률
2024-01,100,90,11.1
2024-13,200,180,11.1
2024-03,abc,270,11.1
".

(** An upload without the period column. *)
Definition no_month_csv : string := "매출액,전년동월,증감률
100,90,11.1
".

(** An upload with the same three rows and the bad period left empty. *)
Definition empty_period_csv : string := "월,매출액,전년동월,증감률
2024-01,100,90,11.1
,200,180,11.1
2024-03,abc,270,11.1
".



(** C1 (the code at the failing inputs): a period that does not parse
    makes [load_df] raise ValueError, and a file without the period column
    makes it raise KeyError; with the bad period left empty the same
    upload loads, so the other rows were not at fault. *)
Theorem load_df_raises_to_caller (K : SortKind) :
  load_df (Some bad_period_csv) false = Raise ValueError
  /\ load_df (Some no_month_csv) false = Raise (KeyError c_month)
  /\ exists t, load_df (Some empty_period_csv) false = Ok t
               /\ length (rows t) = 2.
Proof.
  split; [|split].
  - rewrite load_df_eq. reflexivity.
  - rewrite load_df_eq. reflexivity.
  - eexists. split.
    + apply (load_df_any_kind K _ _ _ [24289; 24291]%Z).
      * vm_compute. reflexivity.
      * vm_compute. reflexivity.
      * reflexivity.
    + reflexivity.
Qed.



(** ** The download *)

(** The periods of the sample, in months since year 0. *)
Definition sample_keys : list Z :=
  [24289; 24290; 24291; 24292; 24293; 24294;
   24295; 24296; 24297; 24298; 24299; 24300]%Z.

(** C9 (the code at the failing input): the sample loads and passes the
    check, its derived frame is exported with the period column written
    as full dates ("2024-01-01"), and loading the exported bytes raises
    ValueError instead of returning the table. *)
Theorem download_does_not_reload (K : SortKind) :
  exists t d raw m,
    load_df None true = Ok t
    /\ rejected t = false
    /\ derive t 3 = Ok d
    /\ pd.read_csv (download d) = Ok raw
    /\ pd.getitem raw c_month = Ok m
    /\ nth 0 m NA = Str "2024-01-01"
    /\ load_df (Some (download d)) false = Raise ValueError.
Proof.
  eexists. eexists. eexists. eexists.
  split.
  { apply (load_df_any_kind K _ _ _ sample_keys).
    - vm_compute. reflexivity.
    - vm_compute. reflexivity.
    - reflexivity. }
  split; [reflexivity|].
  split; [vm_compute; reflexivity|].
  split; [vm_compute; reflexivity|].
  split; [vm_compute; reflexivity|].
  split; [reflexivity|].
  rewrite load_df_eq. vm_compute. reflexivity.
Qed.

(** ** The derived columns *)

Lemma setitem_columns_app df c v :
  exists extra, columns (pd.setitem df c v) = columns df ++ extra.
Proof.
  unfold pd.setitem. destruct (index_of c (columns df)); simpl.
  - exists []. symmetry. apply app_nil_r.
  - exists [c]. reflexivity.
Qed.

Lemma dt_strftime_length m l : pd.dt_strftime m = Ok l -> length l = length m.
Proof.
  unfold pd.dt_strftime. destruct (forallb pd.is_datetime m); [|discriminate].
  intros H. inversion H. apply length_map.
Qed.

Lemma rolling_mean_length w mp s : length (pd.rolling_mean w mp s) = length s.
Proof.
  unfold pd.rolling_mean. rewrite length_map. apply length_seq.
Qed.

(** The stages of [derive]. *)
Lemma derive_stages df window d :
  well_formed df -> derive df window = Ok d ->
  exists m l s,
    pd.getitem df c_month = Ok m
    /\ pd.dt_strftime m = Ok l
    /\ pd.getitem df c_sales = Ok s
    /\ d = pd.setitem (pd.setitem df c_label l) c_mavg
                      (pd.rolling_mean window window s)
    /\ well_formed (pd.setitem df c_label l)
    /\ length l = length (rows df)
    /\ length (rows (pd.setitem df c_label l)) = length (rows df).
Proof.
  intros Hwf H. unfold derive in H.
  apply bind_ok in H. destruct H as [m [Hm H]].
  apply bind_ok in H. destruct H as [l [Hl H]].
  simpl in H.
  apply bind_ok in H. destruct H as [s [Hs H]].
  inversion H; subst d. clear H.
  assert (Ll : length l = length (rows df)).
  { rewrite (dt_strftime_length _ _ Hl). eapply getitem_length, Hm. }
  rewrite getitem_setitem_other in Hs; [|exact Hwf|exact Ll|label_neq].
  exists m, l, s. repeat split; try assumption.
  - apply setitem_well_formed, Hwf.
  - apply setitem_rows_length, Ll.
Qed.

(** C10: for every rectangular table and every window, the derived frame
    has as many rows as the table, every column of the table other than
    the two derived labels reads as before (so the period, sales,
    prior-year and growth columns do), and the columns of the table stay
    where they were, with the new ones after them. *)
Theorem derive_frame df window d :
  well_formed df -> derive df window = Ok d ->
  length (rows d) = length (rows df)
  /\ (forall c, In c required -> pd.getitem d c = pd.getitem df c)
  /\ (forall c, c <> c_label -> c <> c_mavg ->
                pd.getitem d c = pd.getitem df c)
  /\ (exists extra, columns d = columns df ++ extra).
Proof.
  intros Hwf H.
  destruct (derive_stages _ _ _ Hwf H) as (m & l & s & Hm & Hl & Hs & -> & W1 & Ll & L1).
  assert (Lr : length (pd.rolling_mean window window s)
               = length (rows (pd.setitem df c_label l))).
  { rewrite rolling_mean_length, L1. eapply getitem_length, Hs. }
  assert (Hother : forall c, c <> c_label -> c <> c_mavg ->
             pd.getitem (pd.setitem (pd.setitem df c_label l) c_mavg
                           (pd.rolling_mean window window s)) c
             = pd.getitem df c).
  { intros c N1 N2.
    rewrite getitem_setitem_other by (assumption || flip_neq).
    apply getitem_setitem_other; assumption || flip_neq. }
  repeat split.
  - rewrite setitem_rows_length by exact Lr. exact L1.
  - intros c Hc. apply Hother;
      unfold required in Hc; simpl in Hc;
      destruct Hc as [<-|[<-|[<-|[<-|[]]]]]; label_neq.
  - exact Hother.
  - destruct (setitem_columns_app df c_label l) as [e1 E1].
    destruct (setitem_columns_app (pd.setitem df c_label l) c_mavg
                (pd.rolling_mean window window s)) as [e2 E2].
    exists (e1 ++ e2). rewrite E2, E1. symmetry. apply app_assoc.
Qed.

Lemma derive_frame_witness :
  exists df d,
    @load_df stable_kind None true = Ok df
    /\ well_formed df
    /\ derive df 3 = Ok d
    /\ length (rows d) = length (rows df)
    /\ (forall c, In c required -> pd.getitem d c = pd.getitem df c)
    /\ (forall c, c <> c_label -> c <> c_mavg ->
                  pd.getitem d c = pd.getitem df c)
    /\ (exists extra, columns d = columns df ++ extra).
Proof.
  eexists. eexists.
  split; [vm_compute; reflexivity|].
  split; [repeat constructor|].
  split; [vm_compute; reflexivity|].
  apply (derive_frame _ 3); [repeat constructor | vm_compute; reflexivity].
Defined.

(** ** The moving average *)

Lemma observed_length_le s : length (observed s) <= length s.
Proof.
  induction s as [|c s IH]; simpl; [lia|].
  destruct c; simpl; lia.
Qed.

Lemma observed_map_Num qs : observed (map Num qs) = qs.
Proof.
  induction qs as [|q qs IH]; simpl; [reflexivity | f_equal; exact IH].
Qed.

Lemma observed_missing s c :
  In c s -> as_num c = None -> length (observed s) < length s.
Proof.
  induction s as [|x s IH]; simpl; intros Hin Hc; [contradiction|].
  destruct Hin as [->|Hin].
  - pose proof (observed_length_le s).
    destruct c; simpl in *; try discriminate; lia.
  - specialize (IH Hin Hc). destruct x; simpl; lia.
Qed.

Lemma rolling_mean_nth w mp s i :
  i < length s ->
  nth i (pd.rolling_mean w mp s) NA
  = let obs := observed (pd.window_cells w i s) in
    if (mp <=? length obs) && (1 <=? length obs)
    then Num (pd.mean_of obs) else NA.
Proof.
  intros Hi. unfold pd.rolling_mean.
  set (f := fun i => _).
  rewrite (nth_indep _ NA (f 0)) by (rewrite length_map, length_seq; exact Hi).
  rewrite map_nth, seq_nth by exact Hi. reflexivity.
Qed.

Lemma window_cells_full w i s :
  w <= i + 1 -> pd.window_cells w i s = firstn w (skipn (i + 1 - w) s).
Proof.
  intros H. unfold pd.window_cells. f_equal. lia.
Qed.

Lemma window_cells_short w i s : length (pd.window_cells w i s) <= i + 1.
Proof.
  unfold pd.window_cells. rewrite length_firstn. lia.
Qed.

(** C2: for every rectangular table and every window from 2 to 12, the
    moving-average column of the derived frame has, at row [i], no value
    while fewer than [window] rows end at [i]; the sum of the sales of the
    rows [i-window+1 .. i] divided by [window] once those rows exist and
    hold numbers; and no value when one of them holds none. *)
Theorem moving_average_window df window d s :
  well_formed df ->
  2 <= window <= 12 ->
  derive df window = Ok d ->
  pd.getitem df c_sales = Ok s ->
  exists mavg,
    pd.getitem d c_mavg = Ok mavg
    /\ length mavg = length s
    /\ forall i, i < length s ->
         (i + 1 < window -> nth i mavg NA = NA)
         /\ (window <= i + 1 ->
             forall qs,
               firstn window (skipn (i + 1 - window) s) = map Num qs ->
               nth i mavg NA = Num (sumQc qs / Qc_of_nat window)%Qc)
         /\ (window <= i + 1 ->
             forall k, i + 1 - window <= k <= i ->
               as_num (nth k s NA) = None ->
               nth i mavg NA = NA).
Proof.
  intros Hwf Hw H Hs.
  destruct (derive_stages _ _ _ Hwf H)
    as (m & l & s' & Hm & Hl & Hs' & -> & W1 & Ll & L1).
  rewrite Hs in Hs'. inversion Hs'; subst s'. clear Hs'.
  exists (pd.rolling_mean window window s).
  split; [|split].
  - apply getitem_setitem_same; [exact W1|].
    rewrite rolling_mean_length, L1. eapply getitem_length, Hs.
  - apply rolling_mean_length.
  - intros i Hi. rewrite (rolling_mean_nth _ _ _ _ Hi). cbv zeta.
    split; [|split].
    + intros Hshort.
      pose proof (observed_length_le (pd.window_cells window i s)).
      pose proof (window_cells_short window i s).
      destruct (window <=? _) eqn:E; [|reflexivity].
      apply Nat.leb_le in E. lia.
    + intros Hfull qs Hqs.
      rewrite (window_cells_full _ _ _ Hfull), Hqs, observed_map_Num.
      assert (Hlen : length qs = window).
      { rewrite <- (length_map Num), <- Hqs, length_firstn, length_skipn. lia. }
      unfold pd.mean_of. rewrite Hlen, Nat.leb_refl.
      destruct (1 <=? window) eqn:E; [reflexivity|].
      apply Nat.leb_gt in E. lia.
    + intros Hfull k Hk Hnone.
      assert (Hin : In (nth k s NA) (pd.window_cells window i s)).
      { rewrite (window_cells_full _ _ _ Hfull).
        set (lo := i + 1 - window).
        assert (E : nth (k - lo) (firstn window (skipn lo s)) NA = nth k s NA).
        { rewrite nth_firstn.
          destruct (k - lo <? window) eqn:E.
          - rewrite nth_skipn. f_equal. lia.
          - apply Nat.ltb_ge in E. lia. }
        rewrite <- E. apply nth_In.
        rewrite length_firstn, length_skipn. lia. }
      pose proof (observed_missing _ _ Hin Hnone) as Hlt.
      assert (length (pd.window_cells window i s) <= window).
      { rewrite (window_cells_full _ _ _ Hfull), length_firstn. lia. }
      destruct (window <=? _) eqn:E; [|reflexivity].
      apply Nat.leb_le in E. lia.
Qed.

Lemma moving_average_window_witness :
  exists df d s,
    @load_df stable_kind None true = Ok df
    /\ well_formed df
    /\ 2 <= 3 <= 12
    /\ derive df 3 = Ok d
    /\ pd.getitem df c_sales = Ok s
    /\ exists mavg,
      pd.getitem d c_mavg = Ok mavg
      /\ length mavg = length s
      /\ forall i, i < length s ->
           (i + 1 < 3 -> nth i mavg NA = NA)
           /\ (3 <= i + 1 ->
               forall qs,
                 firstn 3 (skipn (i + 1 - 3) s) = map Num qs ->
                 nth i mavg NA = Num (sumQc qs / Qc_of_nat 3)%Qc)
           /\ (3 <= i + 1 ->
               forall k, i + 1 - 3 <= k <= i ->
                 as_num (nth k s NA) = None ->
                 nth i mavg NA = NA).
Proof.
  eexists. eexists. eexists.
  split; [vm_compute; reflexivity|].
  match goal with |- well_formed ?f /\ _ => set (df := f) end.
  split; [repeat constructor|].
  split; [lia|].
  split; [vm_compute; reflexivity|].
  split; [vm_compute; reflexivity|].
  apply (moving_average_window df 3);
    [repeat constructor | lia | vm_compute; reflexivity
     | vm_compute; reflexivity].
Defined.

(** ** The summary figures *)


(** An upload whose second row has no number in any numeric column. *)
Definition missing_numbers_csv : string := "월,매출액,전년동월,증감률
2024-01,100,90,10
2024-02,abc,,n/a
".








(** ** First occurrence of an extreme *)

Section ArgFirst.

(** [better q b] decides whether [q] replaces the best value [b] seen so
    far; [worse b q] is the strict order it decides. *)
Variable better : Qc -> Qc -> bool.
Variable worse : Qc -> Qc -> Prop.
Hypothesis better_spec : forall q b, better q b = true <-> worse b q.
Hypothesis worse_trans : forall a b c, worse a b -> worse b c -> worse a c.
Hypothesis worse_irrefl : forall a, ~ worse a a.
Hypothesis worse_total : forall a b, worse a b \/ a = b \/ worse b a.

(** [f] is the first position of [s] that holds the extreme [m]. *)
Definition first_extreme (s : Series) (f : nat) (m : Qc) : Prop :=
  nth_error s f = Some (Num m)
  /\ (forall k q, nth_error s k = Some (Num q) -> ~ worse m q)
  /\ (forall k q, k < f -> nth_error s k = Some (Num q) -> worse q m).

Lemma first_extreme_cons_skip c s f m :
  as_num c = None -> first_extreme s f m -> first_extreme (c :: s) (S f) m.
Proof.
  intros Hc (Hf & Hall & Hbefore). repeat split.
  - exact Hf.
  - intros [|k] q Hk; simpl in Hk.
    + inversion Hk; subst c. discriminate.
    + eapply Hall, Hk.
  - intros [|k] q Hlt Hk; simpl in Hk.
    + inversion Hk; subst c. discriminate.
    + apply (Hbefore k); [lia | exact Hk].
Qed.

Lemma first_extreme_cons_worse q0 s f m :
  worse q0 m -> first_extreme s f m -> first_extreme (Num q0 :: s) (S f) m.
Proof.
  intros Hw (Hf & Hall & Hbefore). repeat split.
  - exact Hf.
  - intros [|k] q Hk; simpl in Hk.
    + inversion Hk; subst q. intros Hm.
      apply (worse_irrefl q0). eapply worse_trans; eassumption.
    + eapply Hall, Hk.
  - intros [|k] q Hlt Hk; simpl in Hk.
    + inversion Hk; subst q. exact Hw.
    + apply (Hbefore k); [lia | exact Hk].
Qed.

Lemma first_extreme_here q0 s :
  (forall k q, nth_error s k = Some (Num q) -> ~ worse q0 q) ->
  first_extreme (Num q0 :: s) 0 q0.
Proof.
  intros Hall. repeat split.
  - intros [|k] q Hk; simpl in Hk.
    + inversion Hk; subst q. apply worse_irrefl.
    + eapply Hall, Hk.
  - intros k q Hlt. lia.
Qed.

(** The scan from position [i] with [best] in hand either keeps [best],
    which nothing in [s] beats, or ends on the first extreme of [s], which
    beats [best]. *)
Lemma arg_first_spec s : forall i best,
  match pd.arg_first better s i best with
  | None => best = None /\ observed s = []
  | Some (f, m) =>
      (best = Some (f, m)
       /\ forall k q, nth_error s k = Some (Num q) -> ~ worse m q)
      \/ (exists k, f = i + k
                    /\ first_extreme s k m
                    /\ forall j b, best = Some (j, b) -> worse b m)
  end.
Proof.
  induction s as [|c s IH]; intros i best; simpl.
  - destruct best as [[f m]|].
    + left. split; [reflexivity|]. intros [|k] q H; discriminate.
    + split; reflexivity.
  - destruct (as_num c) as [q0|] eqn:Hc.
    + assert (c = Num q0) by (destruct c; simpl in Hc; congruence). subst c.
      destruct best as [[j b]|].
      * destruct (better q0 b) eqn:Hb.
        -- apply better_spec in Hb.
           specialize (IH (S i) (Some (i, q0))).
           destruct (pd.arg_first better s (S i) (Some (i, q0))) as [[f m]|].
           ++ right. destruct IH as [[E Hall]|(k & -> & Hk & Hbest)].
              ** inversion E; subst f m. exists 0. split; [lia|]. split.
                 --- apply first_extreme_here, Hall.
                 --- intros j' b' E'. inversion E'; subst. exact Hb.
              ** pose proof (Hbest i q0 eq_refl) as Hw.
                 exists (S k). split; [lia|]. split.
                 --- apply first_extreme_cons_worse; assumption.
                 --- intros j' b' E'. inversion E'; subst.
                     eapply worse_trans; eassumption.
           ++ destruct IH as [E _]. discriminate.
        -- assert (Hnb : ~ worse b q0).
           { intros Hw. apply better_spec in Hw. congruence. }
           specialize (IH (S i) (Some (j, b))).
           destruct (pd.arg_first better s (S i) (Some (j, b))) as [[f m]|].
           ++ destruct IH as [[E Hall]|(k & -> & Hk & Hbest)].
              ** left. split; [exact E|]. inversion E; subst f m.
                 intros [|k] q Hq; simpl in Hq.
                 --- inversion Hq; subst q. exact Hnb.
                 --- eapply Hall, Hq.
              ** right. pose proof (Hbest j b eq_refl) as Hw.
                 exists (S k). split; [lia|]. split; [|exact Hbest].
                 apply first_extreme_cons_worse; [|exact Hk].
                 destruct (worse_total q0 m) as [H|[H|H]].
                 --- exact H.
                 --- subst m. contradiction.
                 --- exfalso. apply Hnb. eapply worse_trans; eassumption.
           ++ destruct IH as [E _]. discriminate.
      * specialize (IH (S i) (Some (i, q0))).
        destruct (pd.arg_first better s (S i) (Some (i, q0))) as [[f m]|].
        -- right. destruct IH as [[E Hall]|(k & -> & Hk & Hbest)].
           ++ inversion E; subst f m. exists 0. split; [lia|]. split.
              ** apply first_extreme_here, Hall.
              ** intros j' b' E'. discriminate.
           ++ exists (S k). split; [lia|]. split.
              ** apply first_extreme_cons_worse; [|exact Hk].
                 apply (Hbest i q0 eq_refl).
              ** intros j' b' E'. discriminate.
        -- destruct IH as [E _]. discriminate.
    + assert (Hobs : observed (c :: s) = observed s)
        by (destruct c; simpl in *; congruence).
      assert (E : match as_num c, best with
                  | Some q, None => Some (i, q)
                  | Some q, Some (_, b) =>
                      if better q b then Some (i, q) else best
                  | None, _ => best
                  end = best) by (rewrite Hc; reflexivity).
      specialize (IH (S i) best).
      destruct best as [[j b]|];
        destruct (pd.arg_first better s (S i) _) as [[f m]|].
      * destruct IH as [[E' Hall]|(k & -> & Hk & Hbest)].
        -- left. split; [exact E'|].
           intros [|k] q Hq; simpl in Hq.
           ++ inversion Hq; subst c. discriminate.
           ++ eapply Hall, Hq.
        -- right. exists (S k). split; [lia|]. split; [|exact Hbest].
           apply first_extreme_cons_skip; assumption.
      * destruct IH as [E' _]. discriminate.
      * destruct IH as [[E' _]|(k & -> & Hk & Hbest)]; [discriminate|].
        right. exists (S k). split; [lia|]. split; [|exact Hbest].
        apply first_extreme_cons_skip; assumption.
      * destruct IH as [_ IH]. split; [reflexivity|].
        transitivity (observed s); [exact Hobs | exact IH].
Qed.

Lemma arg_first_from_start s :
  match pd.arg_first better s 0 None with
  | None => observed s = []
  | Some (f, m) => first_extreme s f m
  end.
Proof.
  pose proof (arg_first_spec s 0 None) as H.
  destruct (pd.arg_first better s 0 None) as [[f m]|].
  - destruct H as [[E _]|(k & -> & Hk & _)]; [discriminate | exact Hk].
  - apply H.
Qed.

(** A first extreme is unique. *)
Lemma first_extreme_unique s f m f' m' :
  first_extreme s f m -> first_extreme s f' m' -> f = f' /\ m = m'.
Proof.
  intros (Hf & Hall & Hbefore) (Hf' & Hall' & Hbefore').
  assert (m = m').
  { destruct (worse_total m m') as [H|[H|H]].
    - exfalso. exact (Hall f' m' Hf' H).
    - exact H.
    - exfalso. exact (Hall' f m Hf H). }
  subst m'. split; [|reflexivity].
  destruct (Nat.lt_trichotomy f f') as [H|[H|H]].
  - exfalso. exact (worse_irrefl m (Hbefore' f m H Hf)).
  - exact H.
  - exfalso. exact (worse_irrefl m (Hbefore f' m H Hf')).
Qed.

End ArgFirst.

Lemma Qc_ltb_lt a b : pd.Qc_ltb a b = true <-> (a < b)%Qc.
Proof.
  unfold pd.Qc_ltb. rewrite Qclt_alt.
  destruct (a ?= b)%Qc; split; congruence.
Qed.

Lemma Qclt_total a b : (a < b)%Qc \/ a = b \/ (b < a)%Qc.
Proof.
  destruct (Qc_dec a b) as [[H|H]|H]; auto.
Qed.

Lemma Qclt_irrefl a : ~ (a < a)%Qc.
Proof.
  intros H. apply (Qclt_not_eq _ _ H). reflexivity.
Qed.

Lemma observed_nil s k q : observed s = [] -> nth_error s k <> Some (Num q).
Proof.
  revert k. induction s as [|c s IH]; intros k Hobs H.
  - destruct k; discriminate.
  - destruct k as [|k]; simpl in H.
    + inversion H; subst c. discriminate.
    + apply (IH k); [|exact H]. destruct c; simpl in Hobs; congruence.
Qed.

(** [idxmax] returns the first position of the largest number. *)
Lemma idxmax_first s k q :
  nth_error s k = Some (Num q) ->
  exists f m, pd.idxmax s = Ok f /\ first_extreme Qclt s f m.
Proof.
  intros Hk. unfold pd.idxmax.
  pose proof (arg_first_from_start (fun q b => pd.Qc_ltb b q) Qclt
                (fun q b => Qc_ltb_lt b q) Qclt_trans Qclt_irrefl
                Qclt_total s) as H.
  destruct (pd.arg_first _ s 0 None) as [[f m]|].
  - exists f, m. split; [reflexivity | exact H].
  - exfalso. eapply observed_nil; eassumption.
Qed.

(** [idxmin] returns the first position of the smallest number. *)
Lemma idxmin_first s k q :
  nth_error s k = Some (Num q) ->
  exists f m, pd.idxmin s = Ok f
              /\ first_extreme (fun a b => (b < a)%Qc) s f m.
Proof.
  intros Hk. unfold pd.idxmin.
  pose proof (arg_first_from_start (fun q b => pd.Qc_ltb q b)
                (fun a b => (b < a)%Qc)
                (fun q b => Qc_ltb_lt q b)
                (fun a b c H1 H2 => Qclt_trans _ _ _ H2 H1)
                Qclt_irrefl
                (fun a b => match Qclt_total a b with
                            | or_introl H => or_intror (or_intror H)
                            | or_intror (or_introl H) => or_intror (or_introl H)
                            | or_intror (or_intror H) => or_introl H
                            end) s) as H.
  destruct (pd.arg_first _ s 0 None) as [[f m]|].
  - exists f, m. split; [reflexivity | exact H].
  - exfalso. eapply observed_nil; eassumption.
Qed.

Lemma nth_map_nth_error {A B : Type} (g : A -> B) (l : list A) f r d :
  nth_error l f = Some r -> nth f (map g l) d = g r.
Proof.
  intros H. apply nth_error_nth. apply map_nth_error, H.
Qed.

(** The label read from the row that [loc] returns. *)
Lemma label_at df labels f :
  pd.getitem df c_label = Ok labels ->
  f < length (rows df) ->
  (r <- pd.loc df f ;; pd.row_get r c_label) = Ok (nth f labels NA).
Proof.
  intros Hl Hf. unfold pd.getitem in Hl. unfold pd.loc, pd.row_get.
  destruct (nth_error (rows df) f) as [r|] eqn:Hr.
  - simpl. destruct (index_of c_label (columns df)) as [j|]; [|discriminate].
    inversion Hl. f_equal. symmetry.
    apply (nth_map_nth_error (fun r => nth j r NA)), Hr.
  - apply nth_error_None in Hr. lia.
Qed.

(** C8: for every frame in which two different rows hold the same sales
    [m]: when [m] is the largest sales the month reported as the maximum
    is the label of the first row that holds [m], and when [m] is the
    smallest sales the month reported as the minimum is the label of the
    first row that holds [m].  Rows stand in ascending period order in a
    loaded table, so the first row is the earliest period. *)
Theorem extreme_month_first_occurrence d s labels m i j :
  pd.getitem d c_sales = Ok s ->
  pd.getitem d c_label = Ok labels ->
  i <> j ->
  nth_error s i = Some (Num m) ->
  nth_error s j = Some (Num m) ->
  ((forall k q, nth_error s k = Some (Num q) -> (q <= m)%Qc) ->
   exists f, f <= i /\ f <= j
             /\ nth_error s f = Some (Num m)
             /\ (forall k, k < f -> nth_error s k <> Some (Num m))
             /\ max_month d = Ok (nth f labels NA))
  /\ ((forall k q, nth_error s k = Some (Num q) -> (m <= q)%Qc) ->
      exists f, f <= i /\ f <= j
                /\ nth_error s f = Some (Num m)
                /\ (forall k, k < f -> nth_error s k <> Some (Num m))
                /\ min_month d = Ok (nth f labels NA)).
Proof.
  intros Hs Hl Hij Hi Hj.
  assert (Hlen : length s = length (rows d)) by (eapply getitem_length, Hs).
  split; intros Hext.
  - destruct (idxmax_first s i m Hi) as (f & m' & Hidx & Hf & Hall & Hbefore).
    assert (m' = m).
    { apply Qcle_antisym; [eapply Hext, Hf|].
      apply Qcnot_lt_le. eapply Hall, Hi. }
    subst m'.
    assert (Hfirst : forall k, nth_error s k = Some (Num m) -> f <= k).
    { intros k Hk. destruct (Nat.le_gt_cases f k) as [H|H]; [exact H|].
      exfalso. exact (Qclt_irrefl m (Hbefore k m H Hk)). }
    exists f. repeat split; auto.
    + intros k Hlt Hk. specialize (Hfirst k Hk). lia.
    + unfold max_month, max_row. rewrite Hs. simpl. rewrite Hidx. simpl.
      apply label_at; [exact Hl|].
      rewrite <- Hlen. apply nth_error_Some. congruence.
  - destruct (idxmin_first s i m Hi) as (f & m' & Hidx & Hf & Hall & Hbefore).
    assert (m' = m).
    { apply Qcle_antisym; [|eapply Hext, Hf].
      apply Qcnot_lt_le. eapply Hall, Hi. }
    subst m'.
    assert (Hfirst : forall k, nth_error s k = Some (Num m) -> f <= k).
    { intros k Hk. destruct (Nat.le_gt_cases f k) as [H|H]; [exact H|].
      exfalso. exact (Qclt_irrefl m (Hbefore k m H Hk)). }
    exists f. repeat split; auto.
    + intros k Hlt Hk. specialize (Hfirst k Hk). lia.
    + unfold min_month, min_row. rewrite Hs. simpl. rewrite Hidx. simpl.
      apply label_at; [exact Hl|].
      rewrite <- Hlen. apply nth_error_Some. congruence.
Qed.

(** An upload whose largest sales, 9, stands in February and March and
    whose smallest, 5, in January and April. *)
Definition tied_extremes_csv : string := "월,매출액,전년동월,증감률
2024-01,5,4,25.0
2024-02,9,8,12.5
2024-03,9,8,12.5
2024-04,5,4,25.0
".

Lemma extreme_month_first_occurrence_witness :
  exists df d s labels,
    @load_df stable_kind (Some tied_extremes_csv) false = Ok df
    /\ derive df 3 = Ok d
    /\ pd.getitem d c_sales = Ok s
    /\ pd.getitem d c_label = Ok labels
    /\ nth_error s 1 = Some (Num (Q2Qc (9 # 1)))
    /\ nth_error s 2 = Some (Num (Q2Qc (9 # 1)))
    /\ (forall k q, nth_error s k = Some (Num q) -> (q <= Q2Qc (9 # 1))%Qc)
    /\ nth_error s 0 = Some (Num (Q2Qc (5 # 1)))
    /\ nth_error s 3 = Some (Num (Q2Qc (5 # 1)))
    /\ (forall k q, nth_error s k = Some (Num q) -> (Q2Qc (5 # 1) <= q)%Qc)
    /\ (exists f, f <= 1 /\ f <= 2
                  /\ nth_error s f = Some (Num (Q2Qc (9 # 1)))
                  /\ (forall k, k < f ->
                                nth_error s k <> Some (Num (Q2Qc (9 # 1))))
                  /\ max_month d = Ok (nth f labels NA))
    /\ (exists f, f <= 0 /\ f <= 3
                  /\ nth_error s f = Some (Num (Q2Qc (5 # 1)))
                  /\ (forall k, k < f ->
                                nth_error s k <> Some (Num (Q2Qc (5 # 1))))
                  /\ min_month d = Ok (nth f labels NA)).
Proof.
  eexists. eexists. eexists. eexists.
  split; [vm_compute; reflexivity|].
  split; [vm_compute; reflexivity|].
  match goal with |- pd.getitem ?f _ = _ /\ _ => set (d := f) end.
  split; [vm_compute; reflexivity|].
  split; [vm_compute; reflexivity|].
  match goal with |- nth_error ?l 1 = _ /\ _ => set (s := l) end.
  assert (Hmax : forall k q, nth_error s k = Some (Num q)
                             -> (q <= Q2Qc (9 # 1))%Qc).
  { intros k q H.
    do 4 (destruct k as [|k]; simpl in H;
          [inversion H; subst; unfold Qcle, Qle; simpl; lia|]).
    destruct k; discriminate. }
  assert (Hmin : forall k q, nth_error s k = Some (Num q)
                             -> (Q2Qc (5 # 1) <= q)%Qc).
  { intros k q H.
    do 4 (destruct k as [|k]; simpl in H;
          [inversion H; subst; unfold Qcle, Qle; simpl; lia|]).
    destruct k; discriminate. }
  split; [reflexivity|]. split; [reflexivity|]. split; [exact Hmax|].
  split; [reflexivity|]. split; [reflexivity|]. split; [exact Hmin|].
  split.
  - refine (proj1 (extreme_month_first_occurrence d s _ (Q2Qc (9 # 1)) 1 2
                     eq_refl eq_refl _ eq_refl eq_refl) Hmax). lia.
  - refine (proj2 (extreme_month_first_occurrence d s _ (Q2Qc (5 # 1)) 0 3
                     eq_refl eq_refl _ eq_refl eq_refl) Hmin). lia.
Defined.

(** ** The sample, end to end *)

(** [x] lies within [tol] of [target]. *)
Definition close_to (x target tol : Qc) : Prop :=
  (target - tol <= x)%Qc /\ (x <= target + tol)%Qc.

(** The scenario of the embedded sample with a window of three months,
    with the mean growth the reader expects left open: the total, the mean
    growth to one decimal, the first three rows of the moving average, and
    the months of the largest and the smallest sales. *)
Definition sample_scenario (mean_growth : Qc) : Prop :=
  forall K : SortKind,
  exists t d labels mavg g a,
    load_df None true = Ok t
    /\ rejected t = false
    /\ length (rows t) = 12
    /\ derive t 3 = Ok d
    /\ total_sales d = Ok 213000000%Z
    /\ avg_growth d = Ok (Some g)
    /\ close_to g mean_growth (Q2Qc (1 # 20))
    /\ pd.getitem d c_label = Ok labels
    /\ pd.getitem d c_mavg = Ok mavg
    /\ nth_error labels 0 = Some (Str "2024-01")
    /\ nth_error mavg 0 = Some NA
    /\ nth_error labels 1 = Some (Str "2024-02")
    /\ nth_error mavg 1 = Some NA
    /\ nth_error labels 2 = Some (Str "2024-03")
    /\ nth_error mavg 2 = Some (Num a)
    /\ a = ((Qc_of_Z 12000000 + Qc_of_Z 13500000 + Qc_of_Z 11000000)
            / Qc_of_Z 3)%Qc
    /\ close_to a (Q2Qc (1216666667 # 100)) (Q2Qc (1 # 200))
    /\ max_month d = Ok (Str "2024-12")
    /\ min_month d = Ok (Str "2024-03").

Lemma Qcle_by_computation (a b : Qc) : Qle_bool a b = true -> (a <= b)%Qc.
Proof.
  intros H. unfold Qcle. apply Qle_bool_iff, H.
Qed.

(** C4 (amended): on the embedded sample with a window of 3 the total is
    213,000,000, the mean growth is 10.1 to one decimal (607/60), the rows
    of 2024-01 and 2024-02 have no moving average, that of 2024-03 is
    (12,000,000 + 13,500,000 + 11,000,000) / 3 = 12,166,666.67, the
    largest sales is in 2024-12 and the smallest in 2024-03. *)
Theorem sample_end_to_end : sample_scenario (Q2Qc (101 # 10)).
Proof.
  intros K. do 6 eexists.
  split.
  { apply (load_df_any_kind K _ _ _ sample_keys).
    - vm_compute. reflexivity.
    - vm_compute. reflexivity.
    - reflexivity. }
  split; [reflexivity|].
  split; [reflexivity|].
  split; [vm_compute; reflexivity|].
  split; [vm_compute; reflexivity|].
  split; [vm_compute; reflexivity|].
  split; [split; apply Qcle_by_computation; vm_compute; reflexivity|].
  split; [vm_compute; reflexivity|].
  split; [vm_compute; reflexivity|].
  split; [reflexivity|].
  split; [reflexivity|].
  split; [reflexivity|].
  split; [reflexivity|].
  split; [reflexivity|].
  split; [reflexivity|].
  split; [apply Qc_is_canon; vm_compute; reflexivity|].
  split; [split; apply Qcle_by_computation; vm_compute; reflexivity|].
  split; vm_compute; reflexivity.
Qed.

(** C4 (as stated) fails: the mean of the twelve growth figures of the
    sample is 607/60 = 10.1167, which is not 9.7 to one decimal. *)
Lemma sample_mean_growth_not_9_7 : ~ sample_scenario (Q2Qc (97 # 10)).
Proof.
  intros H.
  destruct (H stable_kind)
    as (t & d & labels & mavg & g & a & Ht & _ & _ & Hd & _ & Hg & Hc & _).
  vm_compute in Ht. inversion Ht; subst t. clear Ht.
  vm_compute in Hd. inversion Hd; subst d. clear Hd.
  vm_compute in Hg. inversion Hg; subst g. clear Hg.
  destruct Hc as [_ Hc]. unfold Qcle in Hc.
  apply Qle_bool_iff in Hc. vm_compute in Hc. discriminate Hc.
Qed.

(** * Further properties of the pipeline *)

(** ** Shape of a loaded table *)

Lemma load_df_stages {K : SortKind} file_bytes use_sample_flag t :
  load_df file_bytes use_sample_flag = Ok t ->
  exists raw u d ks,
    pd.read_csv (source_text file_bytes use_sample_flag) = Ok raw
    /\ well_formed raw
    /\ correct_types raw = Ok u
    /\ pd.dropna u c_month = Ok d
    /\ well_formed d
    /\ month_keys d = Ok (map Some ks)
    /\ t = pd.take d (argsort ks).
Proof.
  intros H. rewrite load_df_eq in H.
  apply bind_ok in H. destruct H as [raw [Hraw H]].
  pose proof (read_csv_well_formed _ _ Hraw) as Hwf.
  destruct (prepare_stages _ _ Hwf H) as (u & d & ks & Hu & Hd & Wd & Hk & E).
  exists raw, u, d, ks. repeat split; assumption.
Qed.



Lemma index_of_existsb c cols j :
  index_of c cols = Some j -> existsb (String.eqb c) cols = true.
Proof.
  revert j. induction cols as [|x cols IH]; simpl; intros j H.
  - discriminate.
  - rewrite (String.eqb_sym c x). destruct (String.eqb x c); [reflexivity|].
    destruct (index_of c cols) as [k|]; [|discriminate].
    apply (IH k). reflexivity.
Qed.

Lemma getitem_existsb df c s :
  pd.getitem df c = Ok s -> existsb (String.eqb c) (columns df) = true.
Proof.
  intros H. destruct (getitem_index _ _ _ H) as [j Hj].
  eapply index_of_existsb, Hj.
Qed.

(** The four required columns of the typed frame, with what they hold. *)
Lemma correct_types_columns df u :
  well_formed df -> correct_types df = Ok u ->
  forall c, In c required -> exists s, pd.getitem u c = Ok s.
Proof.
  intros Hwf Hu c Hc.
  destruct (correct_types_spec _ _ Hwf Hu) as (_ & _ & _ & Hm & Hn & _).
  destruct Hc as [<-|Hc].
  - destruct Hm as (m & m' & _ & _ & G). exists m'. exact G.
  - destruct (Hn c Hc) as (s & _ & G). eexists. exact G.
Qed.

(** A table that [load_df] returns has the four required columns, so the
    check after the load rejects it exactly when it has no rows. *)
Theorem loaded_table_rejected_iff_empty
        (K : SortKind) file_bytes use_sample_flag t :
  load_df file_bytes use_sample_flag = Ok t ->
  subset required (columns t) = true
  /\ (rejected t = true <-> rows t = []).
Proof.
  intros H.
  destruct (load_df_stages _ _ _ H)
    as (raw & u & d & ks & _ & Wraw & Hu & Hd & _ & _ & ->).
  assert (Hcols : columns (pd.take d (argsort ks)) = columns u).
  { simpl. unfold pd.dropna in Hd.
    destruct (index_of c_month (columns u)); [|discriminate].
    inversion Hd. reflexivity. }
  assert (Hsub : subset required (columns (pd.take d (argsort ks))) = true).
  { rewrite Hcols. unfold subset. apply forallb_forall. intros c Hc.
    destruct (correct_types_columns _ _ Wraw Hu c Hc) as [s Hs].
    eapply getitem_existsb, Hs. }
  split; [exact Hsub|].
  unfold rejected, pd.empty. rewrite Hsub.
  destruct (correct_types_columns _ _ Wraw Hu c_month (or_introl eq_refl))
    as [s Hs].
  destruct (getitem_index _ _ _ Hs) as [j Hj]. apply index_of_lt in Hj.
  assert (Hc : (length (columns (pd.take d (argsort ks))) =? 0) = false)
    by (rewrite Hcols; apply Nat.eqb_neq; lia).
  rewrite Hc.
  destruct (rows (pd.take d (argsort ks))) as [|r rs]; simpl; split;
    try reflexivity; discriminate.
Qed.

(** An upload with the header and nothing else. *)
Definition header_only_csv : string := "월,매출액,전년동월,증감률
".

Lemma loaded_table_rejected_iff_empty_witness :
  exists t,
    @load_df stable_kind (Some header_only_csv) false = Ok t
    /\ subset required (columns t) = true
    /\ (rejected t = true <-> rows t = []).
Proof.
  eexists. split; [vm_compute; reflexivity|].
  apply (loaded_table_rejected_iff_empty stable_kind (Some header_only_csv)
           false).
  vm_compute. reflexivity.
Defined.

(** ** Which rows are kept *)





(** ** Types of a loaded table *)
















(** ** Labels and periods *)










(** ** The script after a successful load *)






(** ** The months of the extremes need a number *)

Lemma observed_some s :
  observed s <> [] -> exists k q, nth_error s k = Some (Num q).
Proof.
  induction s as [|c s IH]; simpl; intros H; [contradiction|].
  destruct c as [|t|q|y m]; try (destruct (IH H) as (k & q & Hk);
                                 exists (S k), q; exact Hk).
  exists 0, q. reflexivity.
Qed.

Lemma idxmax_none s : observed s = [] -> pd.idxmax s = Raise ValueError.
Proof.
  intros Hobs. unfold pd.idxmax.
  pose proof (arg_first_from_start (fun q b => pd.Qc_ltb b q) Qclt
                (fun q b => Qc_ltb_lt b q) Qclt_trans Qclt_irrefl
                Qclt_total s) as H.
  destruct (pd.arg_first _ s 0 None) as [[f m]|]; [|reflexivity].
  exfalso. destruct H as (Hf & _). eapply observed_nil; eassumption.
Qed.

Lemma idxmin_none s : observed s = [] -> pd.idxmin s = Raise ValueError.
Proof.
  intros Hobs. unfold pd.idxmin.
  destruct (pd.arg_first (fun q b => pd.Qc_ltb q b) s 0 None)
    as [[f m]|] eqn:E; [|reflexivity].
  exfalso.
  assert (Hgen : forall s i best f m,
             pd.arg_first (fun q b => pd.Qc_ltb q b) s i best = Some (f, m) ->
             observed s = [] -> best = Some (f, m)).
  { clear. induction s as [|c s IH]; simpl; intros i best f m H Hobs.
    - exact H.
    - destruct c; simpl in *; try discriminate; eapply IH; eassumption. }
  specialize (Hgen s 0 None f m E Hobs). discriminate.
Qed.

(** The rows of the extremes exist exactly when some sales is a number:
    with no number in the sales column -- which the check after the load
    does not look at -- both lookups raise; with one, both return a row. *)
Theorem extreme_rows_need_a_number d s :
  pd.getitem d c_sales = Ok s ->
  (observed s = [] -> raises (max_row d) /\ raises (min_row d))
  /\ (observed s <> [] ->
      (exists r, max_row d = Ok r) /\ (exists r, min_row d = Ok r)).
Proof.
  intros Gs.
  assert (Hlen : length s = length (rows d)) by (eapply getitem_length, Gs).
  split; intros Hobs.
  - unfold max_row, min_row. rewrite Gs. simpl.
    rewrite (idxmax_none _ Hobs), (idxmin_none _ Hobs).
    split; exists ValueError; reflexivity.
  - destruct (observed_some _ Hobs) as (k & q & Hk).
    unfold max_row, min_row. rewrite Gs. simpl. split.
    + destruct (idxmax_first s k q Hk) as (f & m & -> & Hf & _). simpl.
      unfold pd.loc.
      destruct (nth_error (rows d) f) as [r|] eqn:Hr.
      * eexists. reflexivity.
      * apply nth_error_None in Hr.
        assert (f < length s) by (apply nth_error_Some; congruence). lia.
    + destruct (idxmin_first s k q Hk) as (f & m & -> & Hf & _). simpl.
      unfold pd.loc.
      destruct (nth_error (rows d) f) as [r|] eqn:Hr.
      * eexists. reflexivity.
      * apply nth_error_None in Hr.
        assert (f < length s) by (apply nth_error_Some; congruence). lia.
Qed.

(** An upload whose sales are text in every row. *)
Definition no_sales_csv : string := "월,매출액,전년동월,증감률
2024-01,n/a,90,10
2024-02,soon,95,5
".

Lemma extreme_rows_need_a_number_witness :
  exists t d s,
    @load_df stable_kind (Some no_sales_csv) false = Ok t
    /\ rejected t = false
    /\ derive t 3 = Ok d
    /\ pd.getitem d c_sales = Ok s
    /\ observed s = []
    /\ raises (max_row d) /\ raises (min_row d).
Proof.
  do 3 eexists.
  split; [vm_compute; reflexivity|].
  split; [vm_compute; reflexivity|].
  split; [vm_compute; reflexivity|].
  match goal with |- pd.getitem ?f _ = _ /\ _ => set (d := f) end.
  split; [vm_compute; reflexivity|].
  match goal with |- observed ?l = _ /\ _ => set (s := l) end.
  split; [reflexivity|].
  assert (Gs : pd.getitem d c_sales = Ok s) by (vm_compute; reflexivity).
  exact (proj1 (extreme_rows_need_a_number d s Gs) eq_refl).
Defined.

(** ** Smoothing a constant series *)

Lemma Qc_of_nat_succ n : Qc_of_nat (S n) = (Qc_of_nat n + Q2Qc 1)%Qc.
Proof.
  unfold Qc_of_nat, Qc_of_Z, Qcplus. apply Q2Qc_eq_iff.
  cbn [this Q2Qc]. rewrite !Qred_correct, Nat2Z.inj_succ.
  unfold Z.succ. rewrite inject_Z_plus. reflexivity.
Qed.

Lemma Qc_of_nat_nonzero n : 1 <= n -> Qc_of_nat n <> Q2Qc 0.
Proof.
  intros Hn E. unfold Qc_of_nat, Qc_of_Z in E.
  apply Q2Qc_eq_iff in E. unfold Qeq in E. simpl in E. lia.
Qed.

Lemma sumQc_repeat R n : sumQc (repeat R n) = (R * Qc_of_nat n)%Qc.
Proof.
  induction n as [|n IH].
  - simpl. unfold Qc_of_nat, Qc_of_Z. simpl.
    symmetry. apply Qcmult_0_r.
  - simpl repeat. simpl sumQc. rewrite IH, Qc_of_nat_succ. ring.
Qed.

Lemma observed_constant R s :
  Forall (fun c => c = Num R) s -> observed s = repeat R (length s).
Proof.
  induction 1 as [|c s Hc _ IH]; simpl; [reflexivity|].
  subst c. f_equal. exact IH.
Qed.

Lemma mean_of_constant R n : 1 <= n -> pd.mean_of (repeat R n) = R.
Proof.
  intros Hn. unfold pd.mean_of. rewrite sumQc_repeat, repeat_length.
  apply Qcdiv_mult_l, Qc_of_nat_nonzero, Hn.
Qed.

(** When every row has the same sales [R], the moving average is exactly
    [R] on every row that has a full window behind it, for every window of
    at least one month, and missing on the rows before. *)
Theorem constant_sales_moving_average df window d s R :
  well_formed df ->
  1 <= window ->
  derive df window = Ok d ->
  pd.getitem df c_sales = Ok s ->
  Forall (fun c => c = Num R) s ->
  exists mavg,
    pd.getitem d c_mavg = Ok mavg
    /\ forall i, i < length s ->
         nth i mavg NA = if window <=? i + 1 then Num R else NA.
Proof.
  intros Hwf Hw H Hs Hconst.
  destruct (derive_stages _ _ _ Hwf H)
    as (m & l & s' & Hm & Hl & Hs' & -> & W1 & Ll & L1).
  rewrite Hs in Hs'. inversion Hs'; subst s'. clear Hs'.
  exists (pd.rolling_mean window window s). split.
  - apply getitem_setitem_same; [exact W1|].
    rewrite rolling_mean_length, L1. eapply getitem_length, Hs.
  - intros i Hi. rewrite (rolling_mean_nth _ _ _ _ Hi). cbv zeta.
    destruct (window <=? i + 1) eqn:E.
    + apply Nat.leb_le in E.
      rewrite (window_cells_full _ _ _ E).
      assert (Hcells : Forall (fun c => c = Num R)
                              (firstn window (skipn (i + 1 - window) s))).
      { apply Forall_forall. intros c Hc.
        apply In_nth with (d := NA) in Hc. destruct Hc as (k & Hk & <-).
        rewrite Forall_forall in Hconst. apply Hconst.
        rewrite length_firstn, length_skipn in Hk.
        rewrite nth_firstn.
        destruct (k <? window) eqn:Ek; [|apply Nat.ltb_ge in Ek; lia].
        rewrite nth_skipn. apply nth_In. lia. }
      rewrite (observed_constant _ _ Hcells), repeat_length.
      rewrite length_firstn, length_skipn.
      replace (Nat.min window (length s - (i + 1 - window))) with window
        by lia.
      rewrite Nat.leb_refl, (mean_of_constant R window Hw).
      destruct (1 <=? window) eqn:E1; [reflexivity|].
      apply Nat.leb_gt in E1. lia.
    + apply Nat.leb_gt in E.
      pose proof (observed_length_le (pd.window_cells window i s)).
      pose proof (window_cells_short window i s).
      destruct (window <=? _) eqn:E2; [|reflexivity].
      apply Nat.leb_le in E2. lia.
Qed.

(** An upload with the same sales in its four months. *)
Definition constant_sales_csv : string := "월,매출액,전년동월,증감률
2024-01,750,700,7.1
2024-02,750,720,4.2
2024-03,750,740,1.4
2024-04,750,760,-1.3
".

Lemma constant_sales_moving_average_witness :
  exists df d s,
    @load_df stable_kind (Some constant_sales_csv) false = Ok df
    /\ well_formed df
    /\ 1 <= 3
    /\ derive df 3 = Ok d
    /\ pd.getitem df c_sales = Ok s
    /\ Forall (fun c => c = Num (Q2Qc (750 # 1))) s
    /\ exists mavg,
      pd.getitem d c_mavg = Ok mavg
      /\ forall i, i < length s ->
           nth i mavg NA = if 3 <=? i + 1 then Num (Q2Qc (750 # 1)) else NA.
Proof.
  do 3 eexists.
  split; [vm_compute; reflexivity|].
  match goal with |- well_formed ?f /\ _ => set (df := f) end.
  split; [repeat constructor|].
  split; [lia|].
  split; [vm_compute; reflexivity|].
  split; [vm_compute; reflexivity|].
  split; [repeat constructor|].
  apply (constant_sales_moving_average df 3);
    [repeat constructor | lia | vm_compute; reflexivity
     | vm_compute; reflexivity | repeat constructor].
Defined.

(** ** Files already in order *)

Lemma strongly_sorted_lt_NoDup (l : list Z) : StronglySorted Z.lt l -> NoDup l.
Proof.
  induction 1 as [|a l _ IH Ha]; constructor; [|exact IH].
  intros Hin. rewrite Forall_forall in Ha. specialize (Ha a Hin). lia.
Qed.

(** Keys that already ascend strictly are left where they are. *)
Lemma argsort_ascending {K : SortKind} (ks : list Z) :
  StronglySorted Z.lt ks -> argsort ks = seq 0 (length ks).
Proof.
  intros Hs. pose proof (strongly_sorted_lt_NoDup _ Hs) as Hnd.
  set (f := fun i => nth i ks 0%Z).
  assert (Hperm : Permutation (map f (argsort ks)) ks)
    by (apply take_perm, argsort_perm).
  assert (E : map f (argsort ks) = map f (seq 0 (length ks))).
  { unfold f at 2. rewrite map_nth_seq.
    apply strongly_sorted_lt_unique; [|exact Hs|exact Hperm].
    apply strongly_sorted_lt; [apply argsort_sorted|].
    eapply Permutation_NoDup; [apply Permutation_sym, Hperm | exact Hnd]. }
  apply (map_injective_on f); [|exact E].
  intros x y Hx Hy Exy.
  apply (Permutation_in _ (argsort_perm ks)), in_seq in Hx.
  apply in_seq in Hy.
  apply (proj1 (NoDup_nth ks 0%Z) Hnd); [lia | lia | exact Exy].
Qed.

(** When the periods present in the file ascend strictly, the loaded table
    is the typed frame without the rows that lack a period, in file order,
    whatever algorithm sorts: sorting moves no row. *)
Theorem ascending_file_keeps_order
        (K : SortKind) file_bytes use_sample_flag raw u d ks :
  pd.read_csv (source_text file_bytes use_sample_flag) = Ok raw ->
  correct_types raw = Ok u ->
  pd.dropna u c_month = Ok d ->
  month_keys d = Ok (map Some ks) ->
  StronglySorted Z.lt ks ->
  load_df file_bytes use_sample_flag = Ok d.
Proof.
  intros Hraw Hu Hd Hk Hs.
  rewrite load_df_eq, Hraw. simpl.
  rewrite (prepare_from_stages raw u d ks Hu Hd Hk).
  rewrite (argsort_ascending ks Hs).
  unfold month_keys in Hk. apply bind_ok in Hk.
  destruct Hk as [k [Gk Hk]]. inversion Hk as [E].
  apply (f_equal (@length _)) in E. rewrite !length_map in E.
  rewrite (getitem_length _ _ _ Gk) in E.
  unfold pd.take. rewrite <- E, map_nth_seq.
  destruct d. reflexivity.
Qed.

Lemma ascending_file_keeps_order_witness :
  exists raw u d,
    pd.read_csv (source_text (Some missing_numbers_csv) false) = Ok raw
    /\ correct_types raw = Ok u
    /\ pd.dropna u c_month = Ok d
    /\ month_keys d = Ok (map Some [24289; 24290]%Z)
    /\ StronglySorted Z.lt [24289; 24290]%Z
    /\ @load_df passing_kind (Some missing_numbers_csv) false = Ok d.
Proof.
  do 3 eexists.
  assert (Hs : StronglySorted Z.lt [24289; 24290]%Z)
    by (repeat constructor; lia).
  split; [vm_compute; reflexivity|].
  split; [vm_compute; reflexivity|].
  split; [vm_compute; reflexivity|].
  split; [vm_compute; reflexivity|].
  split; [exact Hs|].
  eapply (ascending_file_keeps_order passing_kind
            (Some missing_numbers_csv) false _ _ _ [24289; 24290]%Z);
    [vm_compute; reflexivity | vm_compute; reflexivity
     | vm_compute; reflexivity | vm_compute; reflexivity | exact Hs].
Defined.

(** ** Choosing the source *)

(** With the sample box ticked the upload is not read: whatever bytes were
    uploaded, also bytes that would make the loader raise, [load_df]
    returns the table of the embedded sample, twelve rows that pass the
    check; no upload and an upload of zero bytes give the same table. *)
Theorem sample_box_overrides_upload
        (K : SortKind) (file_bytes : option string) :
  exists t,
    load_df file_bytes true = Ok t
    /\ load_df None false = Ok t
    /\ load_df (Some EmptyString) false = Ok t
    /\ rejected t = false
    /\ length (rows t) = 12.
Proof.
  assert (E : forall b f, source_text b f = SAMPLE_CSV ->
                          @load_df K b f = @load_df K None true).
  { intros b f Hsrc. rewrite !load_df_eq, Hsrc. reflexivity. }
  eexists. split; [|split; [|split]].
  - rewrite (E file_bytes true) by reflexivity.
    apply (load_df_any_kind K _ _ _ sample_keys).
    + vm_compute. reflexivity.
    + vm_compute. reflexivity.
    + reflexivity.
  - rewrite (E None false) by reflexivity.
    apply (load_df_any_kind K _ _ _ sample_keys).
    + vm_compute. reflexivity.
    + vm_compute. reflexivity.
    + reflexivity.
  - rewrite (E (Some EmptyString) false) by reflexivity.
    apply (load_df_any_kind K _ _ _ sample_keys).
    + vm_compute. reflexivity.
    + vm_compute. reflexivity.
    + reflexivity.
  - split; reflexivity.
Qed.

(** ** The moving average stays within the data *)

Lemma observed_In q s : In q (observed s) -> In (Num q) s.
Proof.
  induction s as [|c s IH]; simpl; [tauto|].
  destruct c as [|t|q'|y m]; simpl; try (intros H; right; exact (IH H)).
  intros [->|H]; [left; reflexivity | right; exact (IH H)].
Qed.

Lemma window_cells_incl w i s c : In c (pd.window_cells w i s) -> In c s.
Proof.
  unfold pd.window_cells. intros H.
  rewrite <- (firstn_skipn (i + 1 - w) s). apply in_or_app. right.
  rewrite <- (firstn_skipn (i + 1 - (i + 1 - w)) (skipn (i + 1 - w) s)).
  apply in_or_app. left. exact H.
Qed.

Lemma Qc_of_nat_pos n : 1 <= n -> (Q2Qc 0 < Qc_of_nat n)%Qc.
Proof.
  intros Hn. unfold Qclt, Qc_of_nat, Qc_of_Z. cbn [this Q2Qc].
  rewrite !Qred_correct. unfold Qlt. simpl. lia.
Qed.

Lemma sumQc_bounds lo hi obs :
  Forall (fun q => (lo <= q)%Qc /\ (q <= hi)%Qc) obs ->
  (lo * Qc_of_nat (length obs) <= sumQc obs)%Qc
  /\ (sumQc obs <= hi * Qc_of_nat (length obs))%Qc.
Proof.
  induction 1 as [|q obs [Hlo Hhi] _ [IHlo IHhi]].
  - simpl. unfold Qc_of_nat, Qc_of_Z. simpl.
    rewrite !Qcmult_0_r. split; apply Qcle_refl.
  - simpl length. simpl sumQc. rewrite Qc_of_nat_succ. split.
    + replace (lo * (Qc_of_nat (length obs) + Q2Qc 1))%Qc
        with (lo + lo * Qc_of_nat (length obs))%Qc by ring.
      apply Qcplus_le_compat; assumption.
    + replace (hi * (Qc_of_nat (length obs) + Q2Qc 1))%Qc
        with (hi + hi * Qc_of_nat (length obs))%Qc by ring.
      apply Qcplus_le_compat; assumption.
Qed.

Lemma mean_of_bounds lo hi obs :
  1 <= length obs ->
  Forall (fun q => (lo <= q)%Qc /\ (q <= hi)%Qc) obs ->
  (lo <= pd.mean_of obs)%Qc /\ (pd.mean_of obs <= hi)%Qc.
Proof.
  intros Hn Hall. destruct (sumQc_bounds lo hi obs Hall) as [Hlo Hhi].
  pose proof (Qc_of_nat_pos _ Hn) as Hpos.
  pose proof (Qc_of_nat_nonzero _ Hn) as Hnz.
  assert (E : (pd.mean_of obs * Qc_of_nat (length obs))%Qc = sumQc obs).
  { unfold pd.mean_of. field. exact Hnz. }
  split; apply (Qcmult_lt_0_le_reg_r _ _ _ Hpos); rewrite E; assumption.
Qed.

(** Every value of the moving-average column lies between any two bounds
    that hold for all the sales present in the table, for every window:
    smoothing never leaves the range of the data. *)
Theorem moving_average_within_range df window d s lo hi :
  well_formed df ->
  derive df window = Ok d ->
  pd.getitem df c_sales = Ok s ->
  (forall q, In (Num q) s -> (lo <= q)%Qc /\ (q <= hi)%Qc) ->
  exists mavg,
    pd.getitem d c_mavg = Ok mavg
    /\ forall i a, nth_error mavg i = Some (Num a) ->
                   (lo <= a)%Qc /\ (a <= hi)%Qc.
Proof.
  intros Hwf H Hs Hrange.
  destruct (derive_stages _ _ _ Hwf H)
    as (m & l & s' & Hm & Hl & Hs' & -> & W1 & Ll & L1).
  rewrite Hs in Hs'. inversion Hs'; subst s'. clear Hs'.
  exists (pd.rolling_mean window window s). split.
  - apply getitem_setitem_same; [exact W1|].
    rewrite rolling_mean_length, L1. eapply getitem_length, Hs.
  - intros i a Hi.
    assert (Hlt : i < length s).
    { rewrite <- (rolling_mean_length window window s).
      apply nth_error_Some. congruence. }
    apply (nth_error_nth _ _ NA) in Hi.
    rewrite (rolling_mean_nth _ _ _ _ Hlt) in Hi. cbv zeta in Hi.
    destruct ((window <=? _) && (1 <=? _)) eqn:E; [|discriminate].
    inversion Hi; subst a. apply andb_prop in E. destruct E as [_ E].
    apply Nat.leb_le in E. apply mean_of_bounds; [exact E|].
    apply Forall_forall. intros q Hq.
    apply Hrange, (window_cells_incl window i), observed_In, Hq.
Qed.

Lemma moving_average_within_range_witness :
  exists df d s,
    @load_df stable_kind (Some tied_extremes_csv) false = Ok df
    /\ well_formed df
    /\ derive df 2 = Ok d
    /\ pd.getitem df c_sales = Ok s
    /\ (forall q, In (Num q) s ->
                  (Q2Qc (5 # 1) <= q)%Qc /\ (q <= Q2Qc (9 # 1))%Qc)
    /\ exists mavg,
      pd.getitem d c_mavg = Ok mavg
      /\ forall i a, nth_error mavg i = Some (Num a) ->
                     (Q2Qc (5 # 1) <= a)%Qc /\ (a <= Q2Qc (9 # 1))%Qc.
Proof.
  do 3 eexists.
  split; [vm_compute; reflexivity|].
  match goal with |- well_formed ?f /\ _ => set (df := f) end.
  split; [repeat constructor|].
  split; [vm_compute; reflexivity|].
  split; [vm_compute; reflexivity|].
  match goal with
  | |- (forall q, In (Num q) ?l -> _) /\ _ => set (s := l)
  end.
  assert (Hr : forall q, In (Num q) s ->
                         (Q2Qc (5 # 1) <= q)%Qc /\ (q <= Q2Qc (9 # 1))%Qc).
  { intros q Hq. simpl in Hq.
    repeat (destruct Hq as [Hq|Hq];
            [inversion Hq; subst; split; unfold Qcle, Qle; simpl; lia|]).
    contradiction. }
  split; [exact Hr|].
  apply (moving_average_within_range df 2 _ s);
    [repeat constructor | vm_compute; reflexivity
     | vm_compute; reflexivity | exact Hr].
Defined.

(** ** What the download holds *)

Lemma append_empty_r (s : string) : (s ++ "")%string = s.
Proof.
  induction s as [|a s IH]; simpl; [reflexivity | f_equal; exact IH].
Qed.

Lemma to_csv_header df :
  exists rest, pd.to_csv df = (pd.csv_line (columns df) ++ rest)%string.
Proof.
  unfold pd.to_csv. cbv zeta. simpl String.concat.
  destruct (map _ (rows df)) as [|line lines].
  - exists EmptyString. symmetry. apply append_empty_r.
  - eexists. reflexivity.
Qed.

(** For a table with exactly the four required columns, the derived frame
    has six columns, the four of the table followed by the label and the
    moving average, and the download starts, after the byte-order mark,
    with a header naming all six: the period is exported twice, as the
    timestamp column and as the label column. *)
Theorem download_has_six_columns df window d :
  well_formed df ->
  columns df = required ->
  derive df window = Ok d ->
  columns d = [c_month; c_sales; c_prev; c_growth; c_label; c_mavg]
  /\ exists rest,
      download d
      = (BOM ++ "월,매출액,전년동월,증감률,월_label,매출액_이동평균"
             ++ String LF rest)%string.
Proof.
  intros Hwf Hcols H.
  destruct (derive_stages _ _ _ Hwf H)
    as (m & l & s & Hm & Hl & Hs & -> & W1 & Ll & L1).
  assert (E : columns (pd.setitem (pd.setitem df c_label l) c_mavg
                         (pd.rolling_mean window window s))
              = [c_month; c_sales; c_prev; c_growth; c_label; c_mavg]).
  { unfold pd.setitem at 2. rewrite Hcols.
    replace (index_of c_label required) with (@None nat) by reflexivity.
    unfold pd.setitem. cbn [columns].
    replace (index_of c_mavg (required ++ [c_label])) with (@None nat)
      by reflexivity.
    reflexivity. }
  split; [exact E|].
  unfold download.
  destruct (to_csv_header (pd.setitem (pd.setitem df c_label l) c_mavg
                             (pd.rolling_mean window window s)))
    as [rest Hrest].
  rewrite Hrest, E. exists rest. reflexivity.
Qed.

Lemma download_has_six_columns_witness :
  exists df d,
    @load_df stable_kind (Some constant_sales_csv) false = Ok df
    /\ well_formed df
    /\ columns df = required
    /\ derive df 4 = Ok d
    /\ columns d = [c_month; c_sales; c_prev; c_growth; c_label; c_mavg]
    /\ exists rest,
        download d
        = (BOM ++ "월,매출액,전년동월,증감률,월_label,매출액_이동평균"
               ++ String LF rest)%string.
Proof.
  do 2 eexists.
  split; [vm_compute; reflexivity|].
  match goal with |- well_formed ?f /\ _ => set (df := f) end.
  split; [repeat constructor|].
  split; [reflexivity|].
  split; [vm_compute; reflexivity|].
  apply (download_has_six_columns df 4);
    [repeat constructor | reflexivity | vm_compute; reflexivity].
Defined.
